(** * GIPHY search lab: the click handlers of the three script variants

    The repository holds three variants of one browser script:
    - [js/script.js] and [unnamed/part_000]: the same statements (they differ
      in comments only); an empty search box falls back to the precomputed
      default endpoint.  Embedded once, in [Module Script].
    - [unnamed/part_001]: an empty search box raises an alert and no request
      is made; the term is interpolated as typed, the status is not
      inspected, the results are not filtered and the [catch] block only
      logs.  Embedded in [Module AlertVariant].

    JavaScript strings are sequences of UTF-16 code units; the display
    region is the [innerHTML] string property the scripts read and assign;
    the network, the alert box and the console are a trace of events. *)

From Stdlib Require Import String Ascii DecimalString DecimalPos DecimalN.
From Stdlib Require Import List NArith Bool Lia.
Import ListNotations.
Local Open Scope N_scope.
Set Warnings "-register-all".

(* ================================================================== *)
(** ** Strings *)

Abbreviation code_unit := N.
Abbreviation jsstring := (list N).

(** A literal of the source, as code units. *)
Definition str (s : string) : jsstring :=
  map N_of_ascii (list_ascii_of_string s).
Arguments str s%_string.

(** The double quote, the line feed and runs of spaces of the template
    literals. *)
Definition dq : jsstring := [34].
Definition nl : jsstring := [10].
Definition sp (n : nat) : jsstring := repeat 32 n.

Fixpoint str_eqb (a b : jsstring) : bool :=
  match a, b with
  | [], [] => true
  | x :: a', y :: b' => (x =? y) && str_eqb a' b'
  | _, _ => false
  end.

(** [s] used as a condition: the empty string is falsy. *)
Definition nonempty (s : jsstring) : bool :=
  match s with [] => false | _ :: _ => true end.

(** [`${n}`] for a non-negative integer. *)
Definition decimal (n : N) : jsstring :=
  str (NilZero.string_of_uint (N.to_uint n)).

(** *** String.prototype.trim

    WhiteSpace and LineTerminator code points of ECMAScript. *)
Definition is_white_space (c : code_unit) : bool :=
  ((9 <=? c) && (c <=? 13))           (* TAB LF VT FF CR *)
  || (c =? 32) || (c =? 160)          (* SP, NBSP *)
  || (c =? 5760)                      (* U+1680 *)
  || ((8192 <=? c) && (c <=? 8202))   (* U+2000 .. U+200A *)
  || (c =? 8232) || (c =? 8233)       (* LS, PS *)
  || (c =? 8239) || (c =? 8287)       (* U+202F, U+205F *)
  || (c =? 12288) || (c =? 65279).    (* U+3000, BOM *)

Fixpoint trimStart (s : jsstring) : jsstring :=
  match s with
  | [] => []
  | c :: t => if is_white_space c then trimStart t else s
  end.

Definition trimEnd (s : jsstring) : jsstring := rev (trimStart (rev s)).

Definition trim (s : jsstring) : jsstring := trimEnd (trimStart s).

(* ================================================================== *)
(** ** Completions *)

Inductive js_error : Type :=
| NetworkError (detail : jsstring)   (* fetch() rejected: no response *)
| ErrorMsg (message : jsstring)      (* new Error(message) *)
| SyntaxError                        (* res.json() on a malformed body *)
| TypeError                          (* property of undefined, call of a non-function *)
| URIError.                          (* encodeURIComponent on a lone surrogate *)

Inductive completion (A : Type) : Type :=
| Normal (a : A)
| Throw (e : js_error).
Arguments Normal {A} a.
Arguments Throw {A} e.

Definition cbind {A B} (c : completion A) (f : A -> completion B) : completion B :=
  match c with
  | Normal a => f a
  | Throw e => Throw e
  end.

Fixpoint cmap {A B} (f : A -> completion B) (l : list A) : completion (list B) :=
  match l with
  | [] => Normal []
  | x :: r => cbind (f x) (fun y => cbind (cmap f r) (fun ys => Normal (y :: ys)))
  end.

(* ================================================================== *)
(** ** encodeURIComponent *)

(** uriUnreserved: letters, digits and [- _ . ! ~ * ' ( )]. *)
Definition is_unreserved (c : code_unit) : bool :=
  ((65 <=? c) && (c <=? 90)) || ((97 <=? c) && (c <=? 122))
  || ((48 <=? c) && (c <=? 57))
  || (c =? 45) || (c =? 95) || (c =? 46) || (c =? 33) || (c =? 126)
  || (c =? 42) || (c =? 39) || (c =? 40) || (c =? 41).

Definition is_high_surrogate (c : code_unit) : bool := (55296 <=? c) && (c <=? 56319).
Definition is_low_surrogate (c : code_unit) : bool := (56320 <=? c) && (c <=? 57343).

Definition hex_digit (n : N) : code_unit :=
  if n <? 10 then 48 + n else 55 + n.

(** One octet as [%XX], upper-case. *)
Definition percent (octet : N) : jsstring :=
  [37; hex_digit (N.shiftr octet 4); hex_digit (N.land octet 15)].

Definition utf8 (v : N) : list N :=
  if v <=? 127 then [v]
  else if v <=? 2047 then
    [N.lor 192 (N.shiftr v 6); N.lor 128 (N.land v 63)]
  else if v <=? 65535 then
    [N.lor 224 (N.shiftr v 12); N.lor 128 (N.land (N.shiftr v 6) 63);
     N.lor 128 (N.land v 63)]
  else
    [N.lor 240 (N.shiftr v 18); N.lor 128 (N.land (N.shiftr v 12) 63);
     N.lor 128 (N.land (N.shiftr v 6) 63); N.lor 128 (N.land v 63)].

Definition escape (v : N) : jsstring := concat (map percent (utf8 v)).

Fixpoint encodeURIComponent (s : jsstring) : completion jsstring :=
  match s with
  | [] => Normal []
  | c :: t =>
      if is_unreserved c then
        cbind (encodeURIComponent t) (fun r => Normal (c :: r))
      else if is_low_surrogate c then Throw URIError
      else if is_high_surrogate c then
        match t with
        | lo :: t' =>
            if is_low_surrogate lo then
              cbind (encodeURIComponent t')
                (fun r => Normal (escape ((c - 55296) * 1024 + (lo - 56320) + 65536) ++ r))
            else Throw URIError
        | [] => Throw URIError
        end
      else cbind (encodeURIComponent t) (fun r => Normal (escape c ++ r))
  end.

(* ================================================================== *)
(** ** JSON values, as [res.json()] yields them *)

(** A JSON number is an IEEE double; the scripts observe a number in two
    ways only: its truthiness and its text in a template literal. *)
Record number : Type := { num_is_zero : bool; num_text : jsstring }.

Inductive json : Type :=
| JNull
| JBool (b : bool)
| JNum (n : number)
| JStr (s : jsstring)
| JArr (items : list json)
| JObj (members : list (jsstring * json)).

(** A JavaScript value of the scripts: [None] is [undefined]. *)
Definition value := option json.
Definition undefined : value := None.

(** Own property [k] of a parsed object; of duplicate members the last one
    stays (JSON.parse). *)
Fixpoint own (k : jsstring) (members : list (jsstring * json)) : value :=
  match members with
  | [] => undefined
  | (k', v) :: rest =>
      match own k rest with
      | Some later => Some later
      | None => if str_eqb k k' then Some v else undefined
      end
  end.

(** [v.k] on a value that is neither [null] nor [undefined], for the keys
    the scripts read ([data], [images], [original], [url]): only a parsed
    object can carry them; arrays, strings, numbers and booleans have no
    property of these names. *)
Definition prop (k : jsstring) (v : json) : value :=
  match v with
  | JObj members => own k members
  | _ => undefined
  end.

(** [v.k]: a TypeError on [undefined] and [null]. *)
Definition get (v : value) (k : jsstring) : completion value :=
  match v with
  | None | Some JNull => Throw TypeError
  | Some j => Normal (prop k j)
  end.

(** [v?.k] *)
Definition get_opt (v : value) (k : jsstring) : value :=
  match v with
  | None | Some JNull => undefined
  | Some j => prop k j
  end.

(** ToBoolean *)
Definition truthy (v : value) : bool :=
  match v with
  | None | Some JNull => false
  | Some (JBool b) => b
  | Some (JNum n) => negb (num_is_zero n)
  | Some (JStr s) => nonempty s
  | Some (JArr _) | Some (JObj _) => true
  end.

(** ToString of a parsed value, as a template literal applies it.  An array
    joins its elements with commas ([null] gives the empty string); a plain
    object gives [[object Object]], unless it has an own [toString] member:
    that member is not callable, [valueOf] does not yield a primitive, and
    the conversion throws. *)
Fixpoint to_string (v : json) : completion jsstring :=
  match v with
  | JNull => Normal (str "null")
  | JBool true => Normal (str "true")
  | JBool false => Normal (str "false")
  | JNum n => Normal (num_text n)
  | JStr s => Normal s
  | JArr items =>
      (fix join (l : list json) : completion jsstring :=
         match l with
         | [] => Normal []
         | x :: r =>
             cbind (match x with JNull => Normal [] | _ => to_string x end)
               (fun sx =>
                  match r with
                  | [] => Normal sx
                  | _ :: _ => cbind (join r) (fun sr => Normal (sx ++ str "," ++ sr))
                  end)
         end) items
  | JObj members =>
      match own (str "toString") members with
      | Some _ => Throw TypeError
      | None => Normal (str "[object Object]")
      end
  end.

Definition to_string_value (v : value) : completion jsstring :=
  match v with
  | None => Normal (str "undefined")
  | Some j => to_string j
  end.

(** The receiver of [.filter(...)] / [.map(...)]: only an array has the
    method; on anything else the call is a TypeError. *)
Definition array_of (v : value) : completion (list json) :=
  match v with
  | Some (JArr items) => Normal items
  | _ => Throw TypeError
  end.

(* ================================================================== *)
(** ** The page, the network and the effects of a handler *)

Record response : Type := {
  status : N;                     (* res.status *)
  json_body : completion json     (* what awaiting res.json() gives *)
}.

(** [res.ok]: the status is in the range 200-299. *)
Definition ok (res : response) : bool :=
  (200 <=? status res) && (status res <=? 299).

Inductive fetch_result : Type :=
| Rejected (e : js_error)
| Resolved (res : response).

(** The backing service: what a GET of a URL gives. *)
Definition network := jsstring -> fetch_result.

Inductive log_arg : Type :=
| Text (s : jsstring)
| Values (l : list value).

Inductive event : Type :=
| Alert (message : jsstring)                     (* alert(message) *)
| Fetch (url : jsstring)                         (* fetch(url) *)
| ConsoleLog (args : list log_arg)               (* console.log(...) *)
| ConsoleError (label : jsstring) (e : js_error) (* console.error(label, e) *)
| SetInnerHTML (markup : jsstring)               (* gifContainer.innerHTML = markup *)
| AppendInnerHTML (markup : jsstring).           (* gifContainer.innerHTML += markup *)

(** What a computation leaves: its completion, the markup of the display
    region and the events it performed, oldest first. *)
Record outcome (A : Type) : Type := {
  result : completion A;
  html : jsstring;
  trace : list event
}.
Arguments result {A} o.
Arguments html {A} o.
Arguments trace {A} o.

(** A computation, given the markup the display region holds. *)
Definition js (A : Type) : Type := jsstring -> outcome A.

Definition ret {A} (a : A) : js A :=
  fun h => {| result := Normal a; html := h; trace := [] |}.

Definition throw {A} (e : js_error) : js A :=
  fun h => {| result := Throw e; html := h; trace := [] |}.

Definition bind {A B} (m : js A) (f : A -> js B) : js B :=
  fun h =>
    let o := m h in
    match result o with
    | Normal a =>
        let o' := f a (html o) in
        {| result := result o'; html := html o'; trace := trace o ++ trace o' |}
    | Throw e => {| result := Throw e; html := html o; trace := trace o |}
    end.

Definition try_catch {A} (body : js A) (handler : js_error -> js A) : js A :=
  fun h =>
    let o := body h in
    match result o with
    | Normal _ => o
    | Throw e =>
        let o' := handler e (html o) in
        {| result := result o'; html := html o'; trace := trace o ++ trace o' |}
    end.

Definition lift {A} (c : completion A) : js A :=
  fun h => {| result := c; html := h; trace := [] |}.

Definition emit (e : event) : js unit :=
  fun h => {| result := Normal tt; html := h; trace := [e] |}.

Definition set_innerHTML (markup : jsstring) : js unit :=
  fun _ => {| result := Normal tt; html := markup; trace := [SetInnerHTML markup] |}.

Definition append_innerHTML (markup : jsstring) : js unit :=
  fun h => {| result := Normal tt; html := h ++ markup; trace := [AppendInnerHTML markup] |}.

Definition fetch (net : network) (url : jsstring) : js response :=
  fun h =>
    {| result := match net url with
                 | Rejected e => Throw e
                 | Resolved res => Normal res
                 end;
       html := h;
       trace := [Fetch url] |}.

Notation "x <- m ;; k" := (bind m (fun x => k))
  (at level 61, m at next level, right associativity).
Notation "m ;;; k" := (bind m (fun _ => k))
  (at level 61, right associativity).

(** [for (const x of l) body] *)
Fixpoint for_of {A} (l : list A) (body : A -> js unit) : js unit :=
  match l with
  | [] => ret tt
  | x :: r => body x ;;; for_of r body
  end.

(** Observations of an outcome. *)
Definition is_dom_write (e : event) : bool :=
  match e with SetInnerHTML _ | AppendInnerHTML _ => true | _ => false end.
Definition is_clear (e : event) : bool :=
  match e with SetInnerHTML _ => true | _ => false end.
Definition is_insertion (e : event) : bool :=
  match e with AppendInnerHTML _ => true | _ => false end.
Definition is_fetch (e : event) : bool :=
  match e with Fetch _ => true | _ => false end.
Definition is_console_error (e : event) : bool :=
  match e with ConsoleError _ _ => true | _ => false end.
Definition is_user_visible (e : event) : bool :=
  match e with Alert _ | SetInnerHTML _ | AppendInnerHTML _ => true | _ => false end.

Definition dom_writes {A} (o : outcome A) : list event := filter is_dom_write (trace o).
Definition requests {A} (o : outcome A) : list event := filter is_fetch (trace o).
Definition user_view {A} (o : outcome A) : jsstring * list event :=
  (html o, filter is_user_visible (trace o)).
(** The [catch] block ran. *)
Definition failed {A} (o : outcome A) : bool := existsb is_console_error (trace o).

(* ================================================================== *)
(** ** The property chains on a result item *)

(** [item.images.original.url] *)
Definition images_original_url (item : json) : completion value :=
  cbind (get (Some item) (str "images")) (fun images =>
  cbind (get images (str "original")) (fun original =>
  get original (str "url"))).

(** [item?.images?.original?.url] *)
Definition images_original_url_opt (item : json) : value :=
  get_opt (get_opt (get_opt (Some item) (str "images")) (str "original")) (str "url").

(* ================================================================== *)
(** ** js/script.js (and unnamed/part_000, the same statements) *)

Module Script.

Definition API_KEY : jsstring := str "kRB3yQVxhHG7HfBAwbWk1eFfBTpMHdP3".
Definition LIMIT : N := 25.
Definition RATING : jsstring := str "g".
Definition LANG : jsstring := str "en".
Definition DEFAULT_QUERY : jsstring := str "cats".

(** The initialiser of the constant [endpoint]. *)
Definition endpoint_init : completion jsstring :=
  cbind (encodeURIComponent DEFAULT_QUERY) (fun q =>
  Normal (str "https://api.giphy.com/v1/gifs/search" ++
          str "?api_key=" ++ API_KEY ++
          str "&q=" ++ q ++
          str "&limit=" ++ decimal LIMIT ++
          str "&offset=0" ++
          str "&rating=" ++ RATING ++
          str "&lang=" ++ LANG ++
          str "&bundle=messaging_non_clips")).

Definition endpoint : jsstring :=
  match endpoint_init with
  | Normal u => u
  | Throw _ => []
  end.

Definition fetchGifs (net : network) (url : jsstring) : js (list value) :=
  res <- fetch net url ;;
  if negb (ok res) then throw (ErrorMsg (str "HTTP " ++ decimal (status res)))
  else
    (data <- lift (json_body res) ;;
     field <- lift (get (Some data) (str "data")) ;;
     items <- lift (array_of field) ;;
     images <- lift (cmap images_original_url
                       (filter (fun item => truthy (images_original_url_opt item)) items)) ;;
     emit (ConsoleLog [Text (str "Fetched image URLs:"); Values images]) ;;;
     ret images).

(** The markup appended for one image. *)
Definition img_item (src : jsstring) : jsstring :=
  nl ++ sp 8 ++ str "<div class=" ++ dq ++ str "col-6 col-md-3" ++ dq ++ str ">" ++
  nl ++ sp 10 ++ str "<img src=" ++ dq ++ src ++ dq ++
    str " class=" ++ dq ++ str "img-fluid" ++ dq ++
    str " alt=" ++ dq ++ str "GIF" ++ dq ++ str ">" ++
  nl ++ sp 8 ++ str "</div>".

(** The markup assigned in the [catch] block. *)
Definition error_notice : jsstring :=
  nl ++ sp 6 ++ str "<div class=" ++ dq ++ str "col-12" ++ dq ++ str ">" ++
  nl ++ sp 8 ++ str "<div class=" ++ dq ++ str "alert alert-danger" ++ dq ++
    str " role=" ++ dq ++ str "alert" ++ dq ++ str ">" ++
  nl ++ sp 10 ++ str "Failed to fetch GIFs. Check the console for details." ++
  nl ++ sp 8 ++ str "</div>" ++
  nl ++ sp 6 ++ str "</div>".

(** The Query Builder: the statements of the handler before [try]. *)
Definition build_url (input : jsstring) : completion jsstring :=
  let term := trim input in
  if nonempty term then
    cbind (encodeURIComponent term) (fun q =>
    Normal (str "https://api.giphy.com/v1/gifs/search" ++
            str "?api_key=" ++ API_KEY ++
            str "&q=" ++ q ++
            str "&limit=" ++ decimal LIMIT ++
            str "&offset=0" ++
            str "&rating=" ++ RATING ++
            str "&lang=" ++ LANG ++
            str "&bundle=messaging_non_clips"))
  else Normal endpoint.

(** The Fetch-and-Render Pipeline: the [try ... catch] of the handler. *)
Definition pipeline (net : network) (url : jsstring) : js unit :=
  try_catch
    (images <- fetchGifs net url ;;
     set_innerHTML [] ;;;
     for_of images (fun src =>
       s <- lift (to_string_value src) ;;
       append_innerHTML (img_item s)))
    (fun err =>
       emit (ConsoleError (str "Error fetching GIFs:") err) ;;;
       set_innerHTML error_notice).

(** The click handler. *)
Definition click (net : network) (input : jsstring) : js unit :=
  url <- lift (build_url input) ;;
  pipeline net url.

End Script.

(* ================================================================== *)
(** ** unnamed/part_001 *)

Module AlertVariant.

Definition build_endpoint (searchTerm : jsstring) : jsstring :=
  str "https://api.giphy.com/v1/gifs/search/tags?api_key=kRB3yQVxhHG7HfBAwbWk1eFfBTpMHdP3&q=" ++
  searchTerm ++ str "&limit=25&offset=0".

Definition img_item (url : jsstring) : jsstring :=
  str "<img src=" ++ dq ++ url ++ dq ++
  str " class=" ++ dq ++ str "col-3 mb-3 img-fluid" ++ dq ++
  str " alt=" ++ dq ++ str "GIF" ++ dq ++ str ">".

(** The first statements of the [try] block, up to [const images]: fetch,
    decode, extract. *)
Definition extract (net : network) (endpoint : jsstring) : js (list value) :=
  response <- fetch net endpoint ;;
  data <- lift (json_body response) ;;
  field <- lift (get (Some data) (str "data")) ;;
  items <- lift (array_of field) ;;
  lift (cmap images_original_url items).

(** The [try ... catch] of the handler. *)
Definition pipeline (net : network) (searchTerm : jsstring) : js unit :=
  let endpoint := build_endpoint searchTerm in
  try_catch
    (images <- extract net endpoint ;;
     set_innerHTML [] ;;;
     for_of images (fun url =>
       s <- lift (to_string_value url) ;;
       append_innerHTML (img_item s)) ;;;
     emit (ConsoleLog [Text (str "Search term: " ++ searchTerm)]) ;;;
     emit (ConsoleLog [Values images]))
    (fun error => emit (ConsoleError (str "Error fetching GIFs:") error)).

(** The click handler. *)
Definition click (net : network) (input : jsstring) : js unit :=
  let searchTerm := trim input in
  if negb (nonempty searchTerm) then emit (Alert (str "Please enter a search term!"))
  else pipeline net searchTerm.

End AlertVariant.

(* ================================================================== *)
(** ** Reading a URL back: its query parameters

    The query of a URL runs from the first [?] to the first [#]; its
    parameters are separated by [&], name and value by the first [=]. *)

Fixpoint before (sep : code_unit) (s : jsstring) : jsstring :=
  match s with
  | [] => []
  | c :: t => if c =? sep then [] else c :: before sep t
  end.

Fixpoint after (sep : code_unit) (s : jsstring) : jsstring :=
  match s with
  | [] => []
  | c :: t => if c =? sep then t else after sep t
  end.

Fixpoint split_on (sep : code_unit) (s : jsstring) : list jsstring :=
  match s with
  | [] => [[]]
  | c :: t =>
      if c =? sep then [] :: split_on sep t
      else match split_on sep t with
           | h :: r => (c :: h) :: r
           | [] => [[c]]
           end
  end.

Definition query_params (url : jsstring) : list (jsstring * jsstring) :=
  map (fun p => (before 61 p, after 61 p))
      (split_on 38 (before 35 (after 63 url))).

(** The values of the parameter [name], in order of appearance. *)
Definition param_values (name url : jsstring) : list jsstring :=
  map snd (filter (fun p => str_eqb (fst p) name) (query_params url)).

(** A response body of the documented shape. *)
Definition gif (url : jsstring) : json :=
  JObj [(str "images", JObj [(str "original", JObj [(str "url", JStr url)])])].
Definition body (items : list json) : json := JObj [(str "data", JArr items)].
Definition serving (res : response) : network := fun _ => Resolved res.
Definition success (data : json) : response := {| status := 200; json_body := Normal data |}.

(* ================================================================== *)
(** ** Summaries used in the proofs

    What a run of each script amounts to, as pure functions of the
    response; [fetchGifs_run], [alert_extract_run] and the two [pipeline_run]
    lemmas prove that the handlers above compute them. *)

(** One step of either render loop: [innerHTML += item(`${src}`)]. *)
Definition render_step (item : jsstring -> jsstring) (src : value) : js unit :=
  s <- lift (to_string_value src) ;;
  append_innerHTML (item s).

(** What [fetchGifs] settles to, given what the fetch gave. *)
Definition fetched (r : fetch_result) : completion (list value) :=
  match r with
  | Rejected e => Throw e
  | Resolved res =>
      if negb (ok res) then Throw (ErrorMsg (str "HTTP " ++ decimal (status res)))
      else
        cbind (json_body res) (fun data =>
        cbind (get (Some data) (str "data")) (fun field =>
        cbind (array_of field) (fun items =>
        cmap images_original_url
          (filter (fun item => truthy (images_original_url_opt item)) items))))
  end.

(** What the [try] block of part_001 extracts, given what the fetch gave. *)
Definition fetched_unfiltered (r : fetch_result) : completion (list value) :=
  match r with
  | Rejected e => Throw e
  | Resolved res =>
      cbind (json_body res) (fun data =>
      cbind (get (Some data) (str "data")) (fun field =>
      cbind (array_of field) (fun items =>
      cmap images_original_url items)))
  end.

(** Following the specification, not the code: the non-empty
    original-image URLs of a result array, in array order. *)
Definition url_string (item : json) : option jsstring :=
  match images_original_url_opt item with
  | Some (JStr s) => if nonempty s then Some s else None
  | _ => None
  end.

Definition collected (items : list json) : list jsstring :=
  flat_map (fun item => match url_string item with Some s => [s] | None => [] end) items.

(** An element of the documented shape: its nested URL, where it is there
    (truthy), is a string. *)
Definition shaped (item : json) : bool :=
  match images_original_url_opt item with
  | Some (JStr _) => true
  | v => negb (truthy v)
  end.

(** A code unit that ends neither a parameter ([&]) nor the query ([#]). *)
Definition query_safe (c : code_unit) : bool := negb ((c =? 35) || (c =? 38)).

(** Occurrences of [pat] in [s]. *)
Fixpoint starts_with (pat s : jsstring) : bool :=
  match pat, s with
  | [], _ => true
  | p :: pat', c :: s' => (p =? c) && starts_with pat' s'
  | _ :: _, [] => false
  end.

Fixpoint occurrences (pat s : jsstring) : nat :=
  match s with
  | [] => if starts_with pat [] then 1%nat else 0%nat
  | _ :: t => ((if starts_with pat s then 1 else 0) + occurrences pat t)%nat
  end.

(** The code units of an encoded component: unreserved ones and [%]. *)
Definition uri_char (c : code_unit) : bool := is_unreserved c || (c =? 37).

(** The code units of the URLs js/script.js builds: those of an encoded
    component and the delimiters [: / ? = &]. *)
Definition url_char (c : code_unit) : bool :=
  uri_char c || (c =? 58) || (c =? 47) || (c =? 63) || (c =? 61) || (c =? 38).

(** A code unit is a 16-bit number. *)
Definition is_code_unit (c : N) : bool := c <? 65536.

(* ================================================================== *)
(** * Properties *)

Example encode_space : encodeURIComponent (str "a b&c=d") = Normal (str "a%20b%26c%3Dd").
Proof. reflexivity. Qed.

Example encode_e_acute : encodeURIComponent [233] = Normal (str "%C3%A9").
Proof. reflexivity. Qed.

Example encode_emoji : encodeURIComponent [55357; 56832] = Normal (str "%F0%9F%98%80").
Proof. reflexivity. Qed.

Example encode_lone_surrogate : encodeURIComponent [55357] = Throw URIError.
Proof. reflexivity. Qed.

Example trim_both_ends : trim (str "  funny cats  ") = str "funny cats".
Proof. reflexivity. Qed.

(** ** Running the handlers *)

Lemma bind_run {A B} (m : js A) (f : A -> js B) (h : jsstring) :
  bind m f h =
  match result (m h) with
  | Normal a =>
      {| result := result (f a (html (m h)));
         html := html (f a (html (m h)));
         trace := trace (m h) ++ trace (f a (html (m h))) |}
  | Throw e => {| result := Throw e; html := html (m h); trace := trace (m h) |}
  end.
Proof. reflexivity. Qed.

Ltac step :=
  repeat (rewrite bind_run;
          unfold lift, emit, ret, throw, set_innerHTML;
          cbn [result html trace cbind app]).

Lemma render_step_run (item : jsstring -> jsstring) (src : value) (h : jsstring) :
  render_step item src h =
  match to_string_value src with
  | Normal s =>
      {| result := Normal tt; html := h ++ item s; trace := [AppendInnerHTML (item s)] |}
  | Throw e => {| result := Throw e; html := h; trace := [] |}
  end.
Proof.
  unfold render_step. rewrite bind_run. unfold lift, append_innerHTML. cbn.
  now destruct (to_string_value src).
Qed.

(** The loop appends to whatever the region holds: its completion and its
    events do not depend on that content. *)
Lemma for_of_run (item : jsstring -> jsstring) (images : list value) (h : jsstring) :
  for_of images (render_step item) h =
  {| result := result (for_of images (render_step item) []);
     html := h ++ html (for_of images (render_step item) []);
     trace := trace (for_of images (render_step item) []) |}.
Proof.
  revert h. induction images as [|src images IH]; intros h.
  - cbn. now rewrite app_nil_r.
  - cbn [for_of]. rewrite !bind_run, !render_step_run.
    destruct (to_string_value src) as [s|e]; cbn [result html trace].
    + rewrite (IH (h ++ item s)), (IH ([] ++ item s)). cbn [result html trace app].
      now rewrite app_assoc.
    + now rewrite app_nil_r.
Qed.

(** A loop over values that all convert to strings. *)
Lemma for_of_strings (item : jsstring -> jsstring) (images : list value)
    (srcs : list jsstring) (h : jsstring) :
  cmap to_string_value images = Normal srcs ->
  for_of images (render_step item) h =
  {| result := Normal tt;
     html := h ++ concat (map item srcs);
     trace := map (fun s => AppendInnerHTML (item s)) srcs |}.
Proof.
  revert srcs h. induction images as [|src images IH]; intros srcs h H.
  - cbn in H. injection H as <-. cbn. now rewrite app_nil_r.
  - cbn [cmap] in H. cbn [for_of]. rewrite bind_run, render_step_run.
    destruct (to_string_value src) as [s|e]; cbn [cbind] in H; [|discriminate].
    destruct (cmap to_string_value images) as [ss|e]; cbn [cbind] in H; [|discriminate].
    injection H as <-. cbn [result html trace].
    rewrite (IH ss (h ++ item s) eq_refl). cbn [result html trace map concat app].
    now rewrite app_assoc.
Qed.

(** The loop logs nothing to the console. *)
Lemma for_of_trace (item : jsstring -> jsstring) (images : list value) (h : jsstring) :
  Forall (fun e => is_insertion e = true) (trace (for_of images (render_step item) h)).
Proof.
  revert h. induction images as [|src images IH]; intros h.
  - constructor.
  - cbn [for_of]. rewrite bind_run, render_step_run.
    destruct (to_string_value src) as [s|e]; cbn [result html trace].
    + constructor; [reflexivity | apply IH].
    + constructor.
Qed.

Lemma fetchGifs_run (net : network) (url h : jsstring) :
  Script.fetchGifs net url h =
  match fetched (net url) with
  | Normal images =>
      {| result := Normal images; html := h;
         trace := [Fetch url; ConsoleLog [Text (str "Fetched image URLs:"); Values images]] |}
  | Throw e => {| result := Throw e; html := h; trace := [Fetch url] |}
  end.
Proof.
  unfold Script.fetchGifs, fetched. rewrite bind_run. unfold fetch. cbn [result html trace].
  destruct (net url) as [e|res]; [reflexivity|].
  destruct (negb (ok res)); [reflexivity|].
  destruct (json_body res) as [data|e]; [|reflexivity]. step.
  destruct (get (Some data) (str "data")) as [field|e]; [|reflexivity]. step.
  destruct (array_of field) as [items|e]; [|reflexivity]. step.
  destruct (cmap _ _) as [images|e]; reflexivity.
Qed.

(** The whole pipeline of js/script.js, as a function of what the fetch
    gave: the prior content [h] of the region does not occur on the right. *)
Lemma pipeline_run (net : network) (url h : jsstring) :
  Script.pipeline net url h =
  match fetched (net url) with
  | Throw e =>
      {| result := Normal tt; html := Script.error_notice;
         trace := [Fetch url; ConsoleError (str "Error fetching GIFs:") e;
                   SetInnerHTML Script.error_notice] |}
  | Normal images =>
      let loop := for_of images (render_step Script.img_item) [] in
      match result loop with
      | Normal _ =>
          {| result := Normal tt; html := html loop;
             trace := [Fetch url; ConsoleLog [Text (str "Fetched image URLs:"); Values images];
                       SetInnerHTML []] ++ trace loop |}
      | Throw e =>
          {| result := Normal tt; html := Script.error_notice;
             trace := ([Fetch url; ConsoleLog [Text (str "Fetched image URLs:"); Values images];
                        SetInnerHTML []] ++ trace loop) ++
                      [ConsoleError (str "Error fetching GIFs:") e;
                       SetInnerHTML Script.error_notice] |}
      end
  end.
Proof.
  unfold Script.pipeline, try_catch. rewrite bind_run, fetchGifs_run.
  destruct (fetched (net url)) as [images|e]; cbn [result html trace]; [|reflexivity].
  change (fun src : value => s <- lift (to_string_value src) ;; append_innerHTML (Script.img_item s))
    with (render_step Script.img_item).
  rewrite bind_run. unfold set_innerHTML. cbn [result html trace app].
  destruct (result (for_of images (render_step Script.img_item) [])) as [[]|e]; reflexivity.
Qed.

Lemma alert_extract_run (net : network) (endpoint h : jsstring) :
  AlertVariant.extract net endpoint h =
  {| result := fetched_unfiltered (net endpoint); html := h; trace := [Fetch endpoint] |}.
Proof.
  unfold AlertVariant.extract, fetched_unfiltered. rewrite bind_run. unfold fetch.
  cbn [result html trace].
  destruct (net endpoint) as [e|res]; [reflexivity|].
  destruct (json_body res) as [data|e]; step; [|reflexivity].
  destruct (get (Some data) (str "data")) as [field|e]; step; [|reflexivity].
  destruct (array_of field) as [items|e]; step; reflexivity.
Qed.

(** The whole pipeline of part_001: a failure before the loop leaves the
    region as it was. *)
Lemma alert_pipeline_run (net : network) (term h : jsstring) :
  AlertVariant.pipeline net term h =
  let endpoint := AlertVariant.build_endpoint term in
  match fetched_unfiltered (net endpoint) with
  | Throw e =>
      {| result := Normal tt; html := h;
         trace := [Fetch endpoint; ConsoleError (str "Error fetching GIFs:") e] |}
  | Normal images =>
      let loop := for_of images (render_step AlertVariant.img_item) [] in
      match result loop with
      | Normal _ =>
          {| result := Normal tt; html := html loop;
             trace := ([Fetch endpoint; SetInnerHTML []] ++ trace loop) ++
                      [ConsoleLog [Text (str "Search term: " ++ term)];
                       ConsoleLog [Values images]] |}
      | Throw e =>
          {| result := Normal tt; html := html loop;
             trace := ([Fetch endpoint; SetInnerHTML []] ++ trace loop) ++
                      [ConsoleError (str "Error fetching GIFs:") e] |}
      end
  end.
Proof.
  unfold AlertVariant.pipeline, try_catch. cbv zeta.
  change (fun url : value => s <- lift (to_string_value url) ;; append_innerHTML (AlertVariant.img_item s))
    with (render_step AlertVariant.img_item).
  rewrite bind_run, alert_extract_run. cbn [result html trace].
  destruct (fetched_unfiltered _) as [images|e]; [|reflexivity].
  rewrite bind_run. unfold set_innerHTML. cbn [result html trace].
  rewrite bind_run.
  destruct (result (for_of images (render_step AlertVariant.img_item) [])) as [[]|e];
    [|reflexivity].
  step. reflexivity.
Qed.

(** ** Extraction *)

(** Where the optional chain finds a truthy value, the plain chain does not
    throw and finds the same value. *)
Lemma chain_of_truthy (item : json) :
  truthy (images_original_url_opt item) = true ->
  images_original_url item = Normal (images_original_url_opt item).
Proof.
  unfold images_original_url, images_original_url_opt, get, get_opt.
  destruct item; try discriminate. cbn [prop cbind].
  destruct (own (str "images") members) as [[]|]; try discriminate. cbn [prop cbind].
  destruct (own (str "original") members0) as [[]|]; try discriminate. reflexivity.
Qed.

(** The [map] after the [filter] of [fetchGifs] never throws. *)
Lemma filter_then_map (items : list json) :
  cmap images_original_url
    (filter (fun item => truthy (images_original_url_opt item)) items) =
  Normal (map images_original_url_opt
            (filter (fun item => truthy (images_original_url_opt item)) items)).
Proof.
  induction items as [|item items IH]; [reflexivity|].
  cbn [filter]. destruct (truthy (images_original_url_opt item)) eqn:T; [|exact IH].
  cbn [cmap map]. now rewrite (chain_of_truthy item T), IH.
Qed.

(** On elements of the documented shape the values kept are the non-empty
    URL strings. *)
Lemma kept_of_shaped (items : list json) :
  forallb shaped items = true ->
  map images_original_url_opt
    (filter (fun item => truthy (images_original_url_opt item)) items) =
  map (fun s => Some (JStr s)) (collected items).
Proof.
  induction items as [|item items IH]; [reflexivity|].
  cbn [forallb]. intros [S F]%andb_prop. specialize (IH F).
  cbn [filter]. unfold collected. cbn [flat_map]. fold (collected items).
  unfold shaped in S. unfold url_string.
  destruct (images_original_url_opt item) as [[]|] eqn:E; cbn [truthy] in *;
    try (rewrite (proj1 (negb_true_iff _) S); exact IH);
    try discriminate; try exact IH.
  destruct (nonempty s); cbn [map app]; [now rewrite E, IH | exact IH].
Qed.

Lemma strings_to_string (srcs : list jsstring) :
  cmap to_string_value (map (fun s => Some (JStr s)) srcs) = Normal srcs.
Proof.
  induction srcs as [|s srcs IH]; [reflexivity|].
  cbn [map cmap]. rewrite IH. reflexivity.
Qed.

(** The count of collected URLs is the count of elements that have one. *)
Lemma collected_length (items : list json) :
  length (collected items) =
  length (filter (fun item => match url_string item with Some _ => true | None => false end) items).
Proof.
  induction items as [|item items IH]; [reflexivity|].
  unfold collected. cbn [flat_map filter]. fold (collected items).
  destruct (url_string item); cbn [app length]; now rewrite IH.
Qed.

(** ** Trimming and encoding *)

Lemma trimStart_white (s : jsstring) :
  forallb is_white_space s = true -> trimStart s = [].
Proof.
  induction s as [|c s IH]; [reflexivity|].
  cbn [forallb trimStart]. intros [-> F]%andb_prop. now apply IH.
Qed.

Lemma trim_white (s : jsstring) :
  forallb is_white_space s = true -> trim s = [].
Proof.
  intros F. unfold trim. now rewrite (trimStart_white s F).
Qed.

Lemma unreserved_safe (c : code_unit) :
  is_unreserved c = true -> query_safe c = true.
Proof.
  intros U. unfold query_safe.
  destruct (N.eqb_spec c 35) as [->|_]; [discriminate U|].
  destruct (N.eqb_spec c 38) as [->|_]; [discriminate U|]. reflexivity.
Qed.

Lemma hex_digit_safe (n : N) : query_safe (hex_digit n) = true.
Proof.
  unfold query_safe, hex_digit.
  destruct (N.ltb_spec n 10);
    match goal with |- negb ((?a =? 35) || (?a =? 38)) = true =>
      destruct (N.eqb_spec a 35); [lia|]; destruct (N.eqb_spec a 38); [lia|]; reflexivity
    end.
Qed.

Lemma escape_safe (v : N) : forallb query_safe (escape v) = true.
Proof.
  unfold escape, utf8.
  destruct (v <=? 127); [|destruct (v <=? 2047); [|destruct (v <=? 65535)]];
    cbn [map concat percent app forallb]; now rewrite !hex_digit_safe.
Qed.

Lemma encode_safe_bounded (n : nat) :
  forall s q, (length s <= n)%nat ->
  encodeURIComponent s = Normal q -> forallb query_safe q = true.
Proof.
  induction n as [|n IH]; intros s q L E.
  - destruct s; [|cbn in L; lia]. cbn in E. now injection E as <-.
  - destruct s as [|c t]; [cbn in E; now injection E as <-|].
    cbn [length] in L. cbn [encodeURIComponent] in E.
    destruct (is_unreserved c) eqn:U.
    + destruct (encodeURIComponent t) as [r|] eqn:Et; [|discriminate].
      cbn [cbind] in E. injection E as <-. cbn [forallb].
      rewrite (unreserved_safe c U). apply (IH t r); [lia|exact Et].
    + destruct (is_low_surrogate c); [discriminate|].
      destruct (is_high_surrogate c).
      * destruct t as [|lo t']; [discriminate|].
        destruct (is_low_surrogate lo); [|discriminate].
        destruct (encodeURIComponent t') as [r|] eqn:Et; [|discriminate].
        cbn [cbind] in E. injection E as <-.
        rewrite forallb_app, escape_safe. apply (IH t' r); [cbn [length] in L; lia|exact Et].
      * destruct (encodeURIComponent t) as [r|] eqn:Et; [|discriminate].
        cbn [cbind] in E. injection E as <-.
        rewrite forallb_app, escape_safe. apply (IH t r); [lia|exact Et].
Qed.

(** The encoded form never contains [&] or [#]. *)
Lemma encode_safe (s q : jsstring) :
  encodeURIComponent s = Normal q -> forallb query_safe q = true.
Proof. apply (encode_safe_bounded (length s)). lia. Qed.

(** A term without surrogate code units always has an encoded form. *)
Lemma encode_total (s : jsstring) :
  forallb (fun c => negb (is_high_surrogate c || is_low_surrogate c)) s = true ->
  exists q, encodeURIComponent s = Normal q.
Proof.
  induction s as [|c t IH]; [now exists []|].
  cbn [forallb]. intros [C F]%andb_prop. destruct (IH F) as [r Er].
  apply negb_true_iff, orb_false_iff in C as [Hh Hl].
  cbn [encodeURIComponent]. rewrite Er, Hh, Hl. cbn [cbind].
  destruct (is_unreserved c); eauto.
Qed.

(** ** Query parameters *)

Lemma before_absent (sep : code_unit) (a b : jsstring) :
  forallb (fun c => negb (c =? sep)) a = true ->
  before sep (a ++ b) = a ++ before sep b.
Proof.
  induction a as [|c a IH]; [reflexivity|].
  cbn [forallb app before]. intros [C F]%andb_prop.
  apply negb_true_iff in C. now rewrite C, IH.
Qed.

Lemma after_absent (sep : code_unit) (a b : jsstring) :
  forallb (fun c => negb (c =? sep)) a = true ->
  after sep (a ++ b) = after sep b.
Proof.
  induction a as [|c a IH]; [reflexivity|].
  cbn [forallb app after]. intros [C F]%andb_prop.
  apply negb_true_iff in C. now rewrite C, IH.
Qed.

Lemma split_on_absent (sep : code_unit) (a b : jsstring) :
  forallb (fun c => negb (c =? sep)) a = true ->
  split_on sep (a ++ sep :: b) = a :: split_on sep b.
Proof.
  induction a as [|c a IH].
  - intros _. cbn. now rewrite N.eqb_refl.
  - cbn [forallb app split_on]. intros [C F]%andb_prop.
    apply negb_true_iff in C. now rewrite C, IH.
Qed.

Lemma query_safe_split (s : jsstring) :
  forallb query_safe s = true ->
  forallb (fun c => negb (c =? 35)) s = true /\ forallb (fun c => negb (c =? 38)) s = true.
Proof.
  induction s as [|c s IH]; [now split|].
  cbn [forallb]. intros [C F]%andb_prop. destruct (IH F) as [-> ->].
  unfold query_safe in C. apply negb_true_iff, orb_false_iff in C as [-> ->]. now split.
Qed.

(** A URL whose query is [first & q=value & rest]: its parameters. *)
Lemma query_params_q (path first value rest : jsstring) :
  forallb (fun c => negb (c =? 63)) path = true ->
  forallb query_safe first = true ->
  forallb query_safe value = true ->
  forallb (fun c => negb (c =? 35)) rest = true ->
  query_params (path ++ 63 :: first ++ 38 :: (str "q=" ++ value) ++ 38 :: rest) =
  (before 61 first, after 61 first) :: (str "q", value) ::
  map (fun p => (before 61 p, after 61 p)) (split_on 38 rest).
Proof.
  intros Hp Hf Hv Hr. unfold query_params.
  destruct (query_safe_split _ Hf) as [Hf35 Hf38].
  destruct (query_safe_split _ Hv) as [Hv35 Hv38].
  rewrite (after_absent 63 path _ Hp). cbn [after]. rewrite N.eqb_refl.
  assert (H35 : forallb (fun c => negb (c =? 35))
                  (first ++ 38 :: (str "q=" ++ value) ++ 38 :: rest) = true).
  { rewrite forallb_app, Hf35. cbn [forallb andb negb N.eqb Pos.eqb].
    rewrite forallb_app. cbn [str list_ascii_of_string map app forallb].
    now rewrite Hv35, Hr. }
  replace (first ++ 38 :: (str "q=" ++ value) ++ 38 :: rest)
    with ((first ++ 38 :: (str "q=" ++ value) ++ 38 :: rest) ++ []) by apply app_nil_r.
  rewrite (before_absent 35 _ [] H35). cbn [before]. rewrite app_nil_r.
  rewrite (split_on_absent 38 first _ Hf38).
  rewrite (split_on_absent 38 (str "q=" ++ value) rest).
  - reflexivity.
  - cbn [str list_ascii_of_string map app forallb]. exact Hv38.
Qed.

(* ================================================================== *)
(** * The Query Builder *)

(** The URL js/script.js builds around an already encoded term [q]. *)
Lemma script_url_shape (q : jsstring) :
  str "https://api.giphy.com/v1/gifs/search" ++
  str "?api_key=" ++ Script.API_KEY ++
  str "&q=" ++ q ++
  str "&limit=" ++ decimal Script.LIMIT ++
  str "&offset=0" ++
  str "&rating=" ++ Script.RATING ++
  str "&lang=" ++ Script.LANG ++
  str "&bundle=messaging_non_clips" =
  str "https://api.giphy.com/v1/gifs/search" ++ 63 ::
  str "api_key=kRB3yQVxhHG7HfBAwbWk1eFfBTpMHdP3" ++ 38 ::
  (str "q=" ++ q) ++ 38 ::
  str "limit=25&offset=0&rating=g&lang=en&bundle=messaging_non_clips".
Proof. reflexivity. Qed.

Lemma alert_url_shape (term : jsstring) :
  AlertVariant.build_endpoint term =
  str "https://api.giphy.com/v1/gifs/search/tags" ++ 63 ::
  str "api_key=kRB3yQVxhHG7HfBAwbWk1eFfBTpMHdP3" ++ 38 ::
  (str "q=" ++ term) ++ 38 :: str "limit=25&offset=0".
Proof. reflexivity. Qed.

(** C3, as amended.  For a search term that is not empty once trimmed, the
    URL that js/script.js (and part_000) builds has exactly one [q]
    parameter and its value is the URL-encoded term.  part_001 does not
    encode: it has exactly one [q] parameter, whose value is the trimmed
    term itself, as long as the term contains neither [&] nor [#]. *)
Theorem query_term_is_the_q_parameter (input q : jsstring) :
  nonempty (trim input) = true ->
  encodeURIComponent (trim input) = Normal q ->
  (exists url, Script.build_url input = Normal url /\
               param_values (str "q") url = [q]) /\
  (forallb query_safe (trim input) = true ->
   param_values (str "q") (AlertVariant.build_endpoint (trim input)) = [trim input]).
Proof.
  intros Hne Henc. split.
  - unfold Script.build_url. cbv zeta. rewrite Hne, Henc. cbn [cbind].
    eexists. split; [reflexivity|].
    rewrite script_url_shape. unfold param_values.
    rewrite query_params_q;
      [reflexivity | reflexivity | reflexivity | exact (encode_safe _ _ Henc) | reflexivity].
  - intros Hsafe. rewrite alert_url_shape. unfold param_values.
    rewrite query_params_q;
      [reflexivity | reflexivity | reflexivity | exact Hsafe | reflexivity].
Qed.

Lemma query_term_is_the_q_parameter_witness :
  (exists url, Script.build_url (str "  funny cats ") = Normal url /\
               param_values (str "q") url = [str "funny%20cats"]) /\
  (forallb query_safe (trim (str "  funny cats ")) = true ->
   param_values (str "q") (AlertVariant.build_endpoint (trim (str "  funny cats "))) =
   [trim (str "  funny cats ")]).
Proof.
  apply (query_term_is_the_q_parameter (str "  funny cats ") (str "funny%20cats"));
    reflexivity.
Defined.

(** C3 as stated fails on part_001: for the term [tom & jerry] the encoded
    form is [tom%20%26%20jerry], but the [q] parameter of the URL built is
    [tom ] (the rest of the term starts another parameter). *)
Lemma alert_variant_term_not_encoded :
  nonempty (trim (str "tom & jerry")) = true /\
  encodeURIComponent (trim (str "tom & jerry")) = Normal (str "tom%20%26%20jerry") /\
  param_values (str "q") (AlertVariant.build_endpoint (trim (str "tom & jerry"))) =
    [str "tom "] /\
  occurrences (str "tom%20%26%20jerry")
    (AlertVariant.build_endpoint (trim (str "tom & jerry"))) = 0%nat.
Proof. repeat split; reflexivity. Qed.

(** C4.  For an input that is empty or only white space, js/script.js (and
    part_000) requests the default endpoint, the search URL for [cats] with
    the fixed parameters; part_001 issues no request and alerts the
    user. *)
Theorem empty_term_follows_fallback_policy (net : network) (input h : jsstring) :
  forallb is_white_space input = true ->
  (Script.build_url input = Normal Script.endpoint /\
   Script.click net input h = Script.pipeline net Script.endpoint h /\
   query_params Script.endpoint =
     [(str "api_key", str "kRB3yQVxhHG7HfBAwbWk1eFfBTpMHdP3"); (str "q", str "cats");
      (str "limit", str "25"); (str "offset", str "0"); (str "rating", str "g");
      (str "lang", str "en"); (str "bundle", str "messaging_non_clips")]) /\
  (AlertVariant.click net input h =
     {| result := Normal tt; html := h;
        trace := [Alert (str "Please enter a search term!")] |} /\
   requests (AlertVariant.click net input h) = []).
Proof.
  intros W. pose proof (trim_white input W) as T.
  assert (B : Script.build_url input = Normal Script.endpoint).
  { unfold Script.build_url. cbv zeta. now rewrite T. }
  split; [split; [exact B | split; [|reflexivity]] |].
  - unfold Script.click. rewrite bind_run, B. unfold lift. cbn [result html trace app].
    now destruct (Script.pipeline net Script.endpoint h).
  - unfold AlertVariant.click. cbv zeta. rewrite T. cbn [nonempty negb]. now split.
Qed.

Lemma empty_term_follows_fallback_policy_witness :
  (Script.build_url (str "   ") = Normal Script.endpoint /\
   Script.click (serving (success (body []))) (str "   ") (str "old") =
     Script.pipeline (serving (success (body []))) Script.endpoint (str "old") /\
   query_params Script.endpoint =
     [(str "api_key", str "kRB3yQVxhHG7HfBAwbWk1eFfBTpMHdP3"); (str "q", str "cats");
      (str "limit", str "25"); (str "offset", str "0"); (str "rating", str "g");
      (str "lang", str "en"); (str "bundle", str "messaging_non_clips")]) /\
  (AlertVariant.click (serving (success (body []))) (str "   ") (str "old") =
     {| result := Normal tt; html := str "old";
        trace := [Alert (str "Please enter a search term!")] |} /\
   requests (AlertVariant.click (serving (success (body []))) (str "   ") (str "old")) = []).
Proof.
  apply (empty_term_follows_fallback_policy (serving (success (body []))) (str "   ") (str "old")).
  reflexivity.
Defined.

(** C10.  In js/script.js (and part_000) a click on an empty input and a
    click on the input [cats] build the same URL: the precomputed
    [endpoint] is, code unit for code unit, what the builder of the handler
    produces for [cats]. *)
Theorem default_endpoint_is_the_cats_url :
  Script.endpoint_init = Normal Script.endpoint /\
  Script.build_url [] = Normal Script.endpoint /\
  Script.build_url (str "cats") = Normal Script.endpoint /\
  forall (net : network) (h : jsstring),
    Script.click net [] h = Script.click net (str "cats") h.
Proof.
  assert (E : Script.build_url [] = Normal Script.endpoint) by reflexivity.
  assert (C : Script.build_url (str "cats") = Normal Script.endpoint) by reflexivity.
  split; [reflexivity | split; [exact E | split; [exact C |]]].
  intros net h. unfold Script.click. now rewrite !bind_run, E, C.
Qed.

(* ================================================================== *)
(** * The Fetch-and-Render Pipeline *)

Lemma fetchGifs_result (net : network) (url h : jsstring) :
  result (Script.fetchGifs net url h) = fetched (net url).
Proof. rewrite fetchGifs_run. now destruct (fetched (net url)). Qed.

Lemma alert_extract_result (net : network) (endpoint h : jsstring) :
  result (AlertVariant.extract net endpoint h) = fetched_unfiltered (net endpoint).
Proof. now rewrite alert_extract_run. Qed.

Lemma insertions_no_console_error (tr : list event) :
  Forall (fun e => is_insertion e = true) tr -> existsb is_console_error tr = false.
Proof.
  induction 1 as [|e tr He _ IH]; [reflexivity|].
  cbn [existsb]. rewrite IH. now destruct e.
Qed.

Lemma insertions_dom_writes (tr : list event) :
  Forall (fun e => is_insertion e = true) tr -> filter is_dom_write tr = tr.
Proof.
  induction 1 as [|e tr He _ IH]; [reflexivity|].
  cbn [filter]. rewrite IH. now destruct e.
Qed.

Lemma appends_are_insertions (item : jsstring -> jsstring) (srcs : list jsstring) :
  Forall (fun e => is_insertion e = true) (map (fun s => AppendInnerHTML (item s)) srcs).
Proof. induction srcs; constructor; auto. Qed.

(** The error notice holds no image element. *)
Example error_notice_has_no_image :
  occurrences (str "<img") Script.error_notice = 0%nat /\
  occurrences (str "Failed to fetch GIFs.") Script.error_notice = 1%nat.
Proof. split; reflexivity. Qed.

(** What js/script.js leaves never depends on what the region held. *)
Lemma pipeline_prior_irrelevant (net : network) (url h h' : jsstring) :
  Script.pipeline net url h = Script.pipeline net url h'.
Proof. now rewrite !pipeline_run. Qed.

(** js/script.js on a result array of the documented shape: one image item
    per element that has a non-empty original-image URL, in array order;
    the other elements are skipped. *)
Lemma script_renders_collected (net : network) (url h : jsstring)
    (res : response) (data : json) (items : list json) :
  net url = Resolved res -> ok res = true -> json_body res = Normal data ->
  prop (str "data") data = Some (JArr items) ->
  forallb shaped items = true ->
  Script.pipeline net url h =
  {| result := Normal tt;
     html := concat (map Script.img_item (collected items));
     trace := [Fetch url;
               ConsoleLog [Text (str "Fetched image URLs:");
                           Values (map (fun s => Some (JStr s)) (collected items))];
               SetInnerHTML []] ++
              map (fun s => AppendInnerHTML (Script.img_item s)) (collected items) |}.
Proof.
  intros Hnet Hok Hbody Hdata Hshape.
  rewrite pipeline_run. unfold fetched. rewrite Hnet, Hok, Hbody. cbn [negb cbind].
  destruct data; try discriminate Hdata. unfold get. rewrite Hdata. cbn [cbind array_of].
  rewrite filter_then_map, (kept_of_shaped items Hshape). cbv zeta.
  rewrite (for_of_strings Script.img_item _ (collected items) [] (strings_to_string _)).
  reflexivity.
Qed.

Example script_renders_collected_example :
  html (Script.pipeline
          (serving (success (body [gif (str "https://x/1.gif");
                                   JObj [(str "images", JObj [])];
                                   JNull;
                                   gif [];
                                   gif (str "https://x/2.gif")])))
          Script.endpoint (str "old")) =
  Script.img_item (str "https://x/1.gif") ++ Script.img_item (str "https://x/2.gif").
Proof. reflexivity. Qed.

(** C1, the defect.  On the response of the specification's own example, a
    well-formed element followed by [{"images":{}}], js/script.js renders
    the one image and skips the malformed element; part_001, which maps
    without filtering, throws on the malformed element: it renders no
    image at all, logs a TypeError and leaves the old content in place. *)
Theorem alert_variant_malformed_element_aborts :
  let response :=
    success (body [gif (str "https://x/1.gif"); JObj [(str "images", JObj [])]]) in
  Script.pipeline (serving response) Script.endpoint (str "old") =
    {| result := Normal tt;
       html := Script.img_item (str "https://x/1.gif");
       trace := [Fetch Script.endpoint;
                 ConsoleLog [Text (str "Fetched image URLs:");
                             Values [Some (JStr (str "https://x/1.gif"))]];
                 SetInnerHTML [];
                 AppendInnerHTML (Script.img_item (str "https://x/1.gif"))] |} /\
  AlertVariant.pipeline (serving response) (str "cats") (str "old") =
    {| result := Normal tt;
       html := str "old";
       trace := [Fetch (AlertVariant.build_endpoint (str "cats"));
                 ConsoleError (str "Error fetching GIFs:") TypeError] |}.
Proof. split; reflexivity. Qed.

(** C2, as amended.  js/script.js (and part_000): a response whose status
    is not in 200-299 takes the failure path with [Error("HTTP <status>")],
    and the region ends up holding exactly the error notice, no image
    inserted.  part_001 never reads the status: two responses with the same
    body are handled alike, whatever their status. *)
Theorem non_success_status_renders_notice (net net' : network) (url term h : jsstring)
    (res res' : response) :
  (net url = Resolved res -> ok res = false ->
   Script.pipeline net url h =
   {| result := Normal tt;
      html := Script.error_notice;
      trace := [Fetch url;
                ConsoleError (str "Error fetching GIFs:")
                  (ErrorMsg (str "HTTP " ++ decimal (status res)));
                SetInnerHTML Script.error_notice] |}) /\
  (net (AlertVariant.build_endpoint term) = Resolved res ->
   net' (AlertVariant.build_endpoint term) = Resolved res' ->
   json_body res = json_body res' ->
   AlertVariant.pipeline net term h = AlertVariant.pipeline net' term h).
Proof.
  split.
  - intros Hnet Hok. rewrite pipeline_run. unfold fetched. now rewrite Hnet, Hok.
  - intros Hnet Hnet' Hbody. rewrite !alert_pipeline_run. cbv zeta.
    unfold fetched_unfiltered. now rewrite Hnet, Hnet', Hbody.
Qed.

Lemma non_success_status_renders_notice_witness :
  Script.pipeline (serving {| status := 404; json_body := Normal (body []) |})
    Script.endpoint (str "old") =
  {| result := Normal tt;
     html := Script.error_notice;
     trace := [Fetch Script.endpoint;
               ConsoleError (str "Error fetching GIFs:") (ErrorMsg (str "HTTP 404"));
               SetInnerHTML Script.error_notice] |} /\
  AlertVariant.pipeline (serving {| status := 404; json_body := Normal (body []) |})
    (str "cats") (str "old") =
  AlertVariant.pipeline (serving (success (body []))) (str "cats") (str "old").
Proof.
  pose proof (non_success_status_renders_notice
                (serving {| status := 404; json_body := Normal (body []) |})
                (serving (success (body [])))
                Script.endpoint (str "cats") (str "old")
                {| status := 404; json_body := Normal (body []) |}
                (success (body []))) as [S A].
  split; [apply S | apply A]; reflexivity.
Defined.

(** C2 as stated fails on part_001: a 404 response whose body carries an
    empty [data] array is rendered as an empty result; nothing is logged as
    an error and no notice is shown. *)
Lemma alert_variant_ignores_status :
  let o := AlertVariant.pipeline
             (serving {| status := 404; json_body := Normal (body []) |})
             (str "cats") (str "old") in
  ok {| status := 404; json_body := Normal (body []) |} = false /\
  failed o = false /\ html o = [] /\ dom_writes o = [SetInnerHTML []].
Proof. repeat split; reflexivity. Qed.

(** C5, as amended.  js/script.js (and part_000): when the decoded body has
    no [data] array, reading it throws, and the user sees exactly what a
    body that fails to decode gives: the error notice alone, no image
    inserted.  part_001 catches the same TypeError but only logs it: the
    region keeps what it held. *)
Theorem missing_data_field_renders_notice (net : network) (url term h : jsstring)
    (res : response) (data : json) :
  json_body res = Normal data ->
  (forall items, prop (str "data") data <> Some (JArr items)) ->
  (net url = Resolved res -> ok res = true ->
   Script.pipeline net url h =
   {| result := Normal tt;
      html := Script.error_notice;
      trace := [Fetch url; ConsoleError (str "Error fetching GIFs:") TypeError;
                SetInnerHTML Script.error_notice] |} /\
   forall (net' : network) (res' : response) (e : js_error),
     net' url = Resolved res' -> ok res' = true -> json_body res' = Throw e ->
     user_view (Script.pipeline net' url h) = user_view (Script.pipeline net url h)) /\
  (net (AlertVariant.build_endpoint term) = Resolved res ->
   AlertVariant.pipeline net term h =
   {| result := Normal tt;
      html := h;
      trace := [Fetch (AlertVariant.build_endpoint term);
                ConsoleError (str "Error fetching GIFs:") TypeError] |}).
Proof.
  intros Hbody Hmissing.
  assert (Hthrow : cbind (get (Some data) (str "data")) array_of = Throw TypeError).
  { unfold get. destruct data; try reflexivity. cbn [cbind].
    destruct (prop (str "data") (JObj members)) as [[]|] eqn:E; try reflexivity.
    now destruct (Hmissing items). }
  assert (Hf : forall (A : Type) (k : list json -> completion A),
             cbind (get (Some data) (str "data"))
               (fun field => cbind (array_of field) k) = Throw TypeError).
  { intros A k. destruct (get (Some data) (str "data")) as [field|e]; cbn [cbind] in *.
    - now rewrite Hthrow.
    - now injection Hthrow as ->. }
  split.
  - intros Hnet Hok.
    assert (Hrun : Script.pipeline net url h =
      {| result := Normal tt; html := Script.error_notice;
         trace := [Fetch url; ConsoleError (str "Error fetching GIFs:") TypeError;
                   SetInnerHTML Script.error_notice] |}).
    { rewrite pipeline_run. unfold fetched. rewrite Hnet, Hok, Hbody. cbn [negb cbind].
      now rewrite Hf. }
    split; [exact Hrun|].
    intros net' res' e Hnet' Hok' Hbody'. rewrite Hrun, pipeline_run. unfold fetched.
    now rewrite Hnet', Hok', Hbody'.
  - intros Hnet. rewrite alert_pipeline_run. cbv zeta. unfold fetched_unfiltered.
    rewrite Hnet, Hbody. cbn [cbind]. now rewrite Hf.
Qed.

Lemma missing_data_field_renders_notice_witness :
  Script.pipeline (serving (success (JObj []))) Script.endpoint (str "old") =
  {| result := Normal tt;
     html := Script.error_notice;
     trace := [Fetch Script.endpoint; ConsoleError (str "Error fetching GIFs:") TypeError;
               SetInnerHTML Script.error_notice] |} /\
  AlertVariant.pipeline (serving (success (JObj []))) (str "cats") (str "old") =
  {| result := Normal tt;
     html := str "old";
     trace := [Fetch (AlertVariant.build_endpoint (str "cats"));
               ConsoleError (str "Error fetching GIFs:") TypeError] |}.
Proof.
  assert (Hmissing : forall items, prop (str "data") (JObj []) <> Some (JArr items))
    by (intros items; discriminate).
  pose proof (missing_data_field_renders_notice (serving (success (JObj [])))
                Script.endpoint (str "cats") (str "old") (success (JObj [])) (JObj [])
                eq_refl Hmissing) as [S A].
  split; [apply S | apply A]; reflexivity.
Defined.

(** C5 as stated fails on part_001: on the body [{}] it shows no error
    notice; the region is not written at all. *)
Lemma alert_variant_missing_data_shows_nothing :
  let o := AlertVariant.pipeline (serving (success (JObj []))) (str "cats") (str "old") in
  failed o = true /\ html o = str "old" /\ dom_writes o = [] /\
  occurrences (str "Failed to fetch GIFs.") (html o) = 0%nat.
Proof. repeat split; reflexivity. Qed.

(** C6.  js/script.js and part_000: an empty [data] array takes the success
    path; the region is cleared and nothing is inserted: an empty grid, no
    error logged and no notice. *)
Theorem empty_results_render_empty_grid (net : network) (url h : jsstring)
    (res : response) (data : json) :
  net url = Resolved res -> ok res = true -> json_body res = Normal data ->
  prop (str "data") data = Some (JArr []) ->
  Script.pipeline net url h =
  {| result := Normal tt;
     html := [];
     trace := [Fetch url; ConsoleLog [Text (str "Fetched image URLs:"); Values []];
               SetInnerHTML []] |}.
Proof.
  intros Hnet Hok Hbody Hdata.
  now rewrite (script_renders_collected net url h res data [] Hnet Hok Hbody Hdata eq_refl).
Qed.

Lemma empty_results_render_empty_grid_witness :
  Script.pipeline (serving (success (body []))) Script.endpoint (str "old") =
  {| result := Normal tt;
     html := [];
     trace := [Fetch Script.endpoint;
               ConsoleLog [Text (str "Fetched image URLs:"); Values []];
               SetInnerHTML []] |}.
Proof.
  apply (empty_results_render_empty_grid (serving (success (body []))) Script.endpoint
           (str "old") (success (body [])) (body [])); reflexivity.
Defined.

(** C7.  js/script.js: two invocations in sequence with the same URL and
    the same backing response leave the same content in the region, and the
    second leaves exactly what an invocation on an empty region leaves:
    nothing of the first accumulates. *)
Theorem pipeline_twice_same_content (net : network) (url h : jsstring) :
  let first := Script.pipeline net url h in
  let second := Script.pipeline net url (html first) in
  html second = html first /\
  html second = html (Script.pipeline net url []) /\
  trace second = trace first.
Proof.
  cbv zeta.
  rewrite (pipeline_prior_irrelevant net url (html (Script.pipeline net url h)) h).
  rewrite (pipeline_prior_irrelevant net url h []).
  repeat split.
Qed.

Lemma script_failed_shows_notice (net : network) (url h : jsstring) :
  failed (Script.pipeline net url h) = true ->
  html (Script.pipeline net url h) = Script.error_notice.
Proof.
  rewrite pipeline_run. destruct (fetched (net url)) as [images|e]; [|reflexivity].
  cbv zeta.
  pose proof (for_of_trace Script.img_item images []) as T.
  destruct (result (for_of images (render_step Script.img_item) [])); [|reflexivity].
  unfold failed. cbn [trace app existsb is_console_error orb].
  now rewrite (insertions_no_console_error _ T).
Qed.

(** C8, as amended.  js/script.js (and part_000): when [fetchGifs] returns
    N values that convert to strings (as URL strings do), the writes to the
    region are one clearing assignment followed by N insertions, one per
    value, in order; when [fetchGifs] throws, the only write is the
    assignment of the error notice; and what an invocation leaves never
    depends on what the region held before.  part_001: the success path
    is the same (with its own markup), but when fetching, decoding or
    extracting throws, the region is not written and keeps its content. *)
Theorem region_writes_of_an_invocation (net : network) (url term h : jsstring) :
  ((forall images srcs,
      result (Script.fetchGifs net url h) = Normal images ->
      cmap to_string_value images = Normal srcs ->
      dom_writes (Script.pipeline net url h) =
        SetInnerHTML [] :: map (fun s => AppendInnerHTML (Script.img_item s)) srcs /\
      html (Script.pipeline net url h) = concat (map Script.img_item srcs)) /\
   (forall e,
      result (Script.fetchGifs net url h) = Throw e ->
      dom_writes (Script.pipeline net url h) = [SetInnerHTML Script.error_notice] /\
      html (Script.pipeline net url h) = Script.error_notice) /\
   (forall h', html (Script.pipeline net url h') = html (Script.pipeline net url h))) /\
  ((forall images srcs,
      result (AlertVariant.extract net (AlertVariant.build_endpoint term) h) = Normal images ->
      cmap to_string_value images = Normal srcs ->
      dom_writes (AlertVariant.pipeline net term h) =
        SetInnerHTML [] :: map (fun s => AppendInnerHTML (AlertVariant.img_item s)) srcs /\
      html (AlertVariant.pipeline net term h) = concat (map AlertVariant.img_item srcs)) /\
   (forall e,
      result (AlertVariant.extract net (AlertVariant.build_endpoint term) h) = Throw e ->
      dom_writes (AlertVariant.pipeline net term h) = [] /\
      html (AlertVariant.pipeline net term h) = h)).
Proof.
  split; [split; [|split] | split].
  - intros images srcs Hf Hs. rewrite fetchGifs_result in Hf.
    rewrite pipeline_run, Hf. cbv zeta.
    rewrite (for_of_strings Script.img_item images srcs [] Hs).
    unfold dom_writes. cbn [result html trace app filter is_dom_write].
    now rewrite (insertions_dom_writes _ (appends_are_insertions _ _)).
  - intros e Hf. rewrite fetchGifs_result in Hf. now rewrite pipeline_run, Hf.
  - intros h'. now rewrite (pipeline_prior_irrelevant net url h' h).
  - intros images srcs Hf Hs. rewrite alert_extract_result in Hf.
    rewrite alert_pipeline_run. cbv zeta. rewrite Hf.
    rewrite (for_of_strings AlertVariant.img_item images srcs [] Hs).
    unfold dom_writes. cbn [result html trace app filter is_dom_write].
    rewrite filter_app. cbn [filter is_dom_write].
    now rewrite (insertions_dom_writes _ (appends_are_insertions _ _)), app_nil_r.
  - intros e Hf. rewrite alert_extract_result in Hf.
    rewrite alert_pipeline_run. cbv zeta. now rewrite Hf.
Qed.

Lemma region_writes_of_an_invocation_witness :
  (dom_writes (Script.pipeline (serving (success (body [gif (str "https://x/1.gif")])))
                 Script.endpoint (str "old")) =
     [SetInnerHTML []; AppendInnerHTML (Script.img_item (str "https://x/1.gif"))] /\
   html (Script.pipeline (serving (success (body [gif (str "https://x/1.gif")])))
           Script.endpoint (str "old")) = Script.img_item (str "https://x/1.gif")) /\
  (dom_writes (Script.pipeline (fun _ => Rejected (NetworkError (str "Failed to fetch")))
                 Script.endpoint (str "old")) = [SetInnerHTML Script.error_notice] /\
   html (Script.pipeline (fun _ => Rejected (NetworkError (str "Failed to fetch")))
           Script.endpoint (str "old")) = Script.error_notice) /\
  (dom_writes (AlertVariant.pipeline (serving (success (body [gif (str "https://x/1.gif")])))
                 (str "cats") (str "old")) =
     [SetInnerHTML []; AppendInnerHTML (AlertVariant.img_item (str "https://x/1.gif"))] /\
   html (AlertVariant.pipeline (serving (success (body [gif (str "https://x/1.gif")])))
           (str "cats") (str "old")) = AlertVariant.img_item (str "https://x/1.gif")) /\
  (dom_writes (AlertVariant.pipeline (fun _ => Rejected (NetworkError (str "Failed to fetch")))
                 (str "cats") (str "old")) = [] /\
   html (AlertVariant.pipeline (fun _ => Rejected (NetworkError (str "Failed to fetch")))
           (str "cats") (str "old")) = str "old").
Proof.
  pose proof (region_writes_of_an_invocation
                (serving (success (body [gif (str "https://x/1.gif")])))
                Script.endpoint (str "cats") (str "old")) as [[S1 _] [A1 _]].
  pose proof (region_writes_of_an_invocation
                (fun _ => Rejected (NetworkError (str "Failed to fetch")))
                Script.endpoint (str "cats") (str "old")) as [[_ [S2 _]] [_ A2]].
  split; [|split; [|split]].
  - apply (S1 [Some (JStr (str "https://x/1.gif"))] [str "https://x/1.gif"]); reflexivity.
  - apply (S2 (NetworkError (str "Failed to fetch"))); reflexivity.
  - apply (A1 [Some (JStr (str "https://x/1.gif"))] [str "https://x/1.gif"]); reflexivity.
  - apply (A2 (NetworkError (str "Failed to fetch"))); reflexivity.
Defined.

(** C8 as stated fails on part_001: when the fetch is rejected the region
    is neither cleared nor given a notice; the prior content stays. *)
Lemma alert_variant_failure_keeps_prior_content :
  let o := AlertVariant.pipeline (fun _ => Rejected (NetworkError (str "Failed to fetch")))
             (str "cats") (str "old") in
  failed o = true /\ dom_writes o = [] /\ html o = str "old".
Proof. repeat split; reflexivity. Qed.

(** C9, as amended.  js/script.js (and part_000): any two failing
    invocations end with the same content in the region, the generic
    error notice; when [fetchGifs] threw (transport, status or decode
    error) everything the user sees is the one assignment of that notice,
    and the error itself goes to the console only.  part_001: when
    fetching, decoding or extracting throws, the user is shown nothing (no
    notice, no write to the region), again whatever the error; the error
    goes to the console only. *)
Theorem failures_look_alike (net1 net2 : network) (url1 url2 term h1 h2 : jsstring) :
  (failed (Script.pipeline net1 url1 h1) = true ->
   failed (Script.pipeline net2 url2 h2) = true ->
   html (Script.pipeline net1 url1 h1) = Script.error_notice /\
   html (Script.pipeline net2 url2 h2) = Script.error_notice) /\
  (forall e,
     result (Script.fetchGifs net1 url1 h1) = Throw e ->
     user_view (Script.pipeline net1 url1 h1) =
       (Script.error_notice, [SetInnerHTML Script.error_notice]) /\
     filter is_console_error (trace (Script.pipeline net1 url1 h1)) =
       [ConsoleError (str "Error fetching GIFs:") e]) /\
  (forall e,
     result (AlertVariant.extract net1 (AlertVariant.build_endpoint term) h1) = Throw e ->
     user_view (AlertVariant.pipeline net1 term h1) = (h1, []) /\
     filter is_console_error (trace (AlertVariant.pipeline net1 term h1)) =
       [ConsoleError (str "Error fetching GIFs:") e]).
Proof.
  split; [|split].
  - intros F1 F2. split; now apply script_failed_shows_notice.
  - intros e Hf. rewrite fetchGifs_result in Hf. now rewrite pipeline_run, Hf.
  - intros e Hf. rewrite alert_extract_result in Hf.
    rewrite alert_pipeline_run. cbv zeta. now rewrite Hf.
Qed.

Lemma failures_look_alike_witness :
  (html (Script.pipeline (fun _ => Rejected (NetworkError (str "Failed to fetch")))
           Script.endpoint (str "cats grid")) = Script.error_notice /\
   html (Script.pipeline (serving {| status := 500; json_body := Throw SyntaxError |})
           Script.endpoint (str "dogs grid")) = Script.error_notice) /\
  (user_view (Script.pipeline (fun _ => Rejected (NetworkError (str "Failed to fetch")))
                Script.endpoint (str "cats grid")) =
     (Script.error_notice, [SetInnerHTML Script.error_notice]) /\
   filter is_console_error
     (trace (Script.pipeline (fun _ => Rejected (NetworkError (str "Failed to fetch")))
               Script.endpoint (str "cats grid"))) =
     [ConsoleError (str "Error fetching GIFs:") (NetworkError (str "Failed to fetch"))]) /\
  (user_view (AlertVariant.pipeline (fun _ => Rejected (NetworkError (str "Failed to fetch")))
                (str "cats") (str "cats grid")) = (str "cats grid", []) /\
   filter is_console_error
     (trace (AlertVariant.pipeline (fun _ => Rejected (NetworkError (str "Failed to fetch")))
               (str "cats") (str "cats grid"))) =
     [ConsoleError (str "Error fetching GIFs:") (NetworkError (str "Failed to fetch"))]).
Proof.
  pose proof (failures_look_alike
                (fun _ => Rejected (NetworkError (str "Failed to fetch")))
                (serving {| status := 500; json_body := Throw SyntaxError |})
                Script.endpoint Script.endpoint (str "cats")
                (str "cats grid") (str "dogs grid")) as [S [K A]].
  split; [|split].
  - apply S; reflexivity.
  - apply (K (NetworkError (str "Failed to fetch"))); reflexivity.
  - apply (A (NetworkError (str "Failed to fetch"))); reflexivity.
Defined.

(** C9 as stated fails on part_001: two failing invocations, a rejected
    fetch and a body that does not decode, show no error notice at all;
    each leaves what the region held, so the two outputs even differ. *)
Lemma alert_variant_failures_show_no_notice :
  let o1 := AlertVariant.pipeline (fun _ => Rejected (NetworkError (str "Failed to fetch")))
              (str "cats") (str "cats grid") in
  let o2 := AlertVariant.pipeline (serving (success (JObj [])))
              (str "cats") (str "dogs grid") in
  failed o1 = true /\ failed o2 = true /\
  user_view o1 = (str "cats grid", []) /\
  user_view o2 = (str "dogs grid", []) /\
  html o1 <> html o2.
Proof. repeat split; try reflexivity. discriminate. Qed.

(* ================================================================== *)
(** * Further properties of the handlers *)

(** ** The search term: trimming *)

Lemma trimStart_app (s t : jsstring) :
  trimStart (s ++ t) =
  if forallb is_white_space s then trimStart t else trimStart s ++ t.
Proof.
  induction s as [|c s IH]; [reflexivity|].
  cbn [app trimStart forallb]. destruct (is_white_space c); [exact IH | reflexivity].
Qed.

Lemma trimStart_nil_iff (s : jsstring) :
  trimStart s = [] <-> forallb is_white_space s = true.
Proof.
  split; [|apply trimStart_white].
  induction s as [|c s IH]; [reflexivity|].
  cbn [trimStart forallb]. destruct (is_white_space c); [exact IH | discriminate].
Qed.

Lemma forallb_rev {A} (f : A -> bool) (l : list A) :
  forallb f (rev l) = forallb f l.
Proof.
  induction l as [|x l IH]; [reflexivity|].
  cbn [rev forallb]. rewrite forallb_app, IH. cbn [forallb].
  now rewrite andb_true_r, andb_comm.
Qed.

Lemma trimEnd_app (s t : jsstring) :
  trimEnd (s ++ t) =
  if forallb is_white_space t then trimEnd s else s ++ trimEnd t.
Proof.
  unfold trimEnd. rewrite rev_app_distr, trimStart_app, forallb_rev.
  destruct (forallb is_white_space t); [reflexivity|].
  now rewrite rev_app_distr, rev_involutive.
Qed.

Lemma trimStart_keeps_content (s : jsstring) :
  forallb is_white_space (trimStart s) = forallb is_white_space s.
Proof.
  induction s as [|c s IH]; [reflexivity|].
  cbn [trimStart]. destruct (is_white_space c) eqn:W; [|reflexivity].
  cbn [forallb]. now rewrite W, IH.
Qed.

(** White space around the text of the search box is dropped. *)
Lemma trim_surrounded (before_ws s after_ws : jsstring) :
  forallb is_white_space before_ws = true ->
  forallb is_white_space after_ws = true ->
  trim (before_ws ++ s ++ after_ws) = trim s.
Proof.
  intros B A. unfold trim. rewrite trimStart_app, B, trimStart_app.
  destruct (forallb is_white_space s) eqn:S.
  - now rewrite (trimStart_white _ A), (trimStart_white _ S).
  - now rewrite trimEnd_app, A.
Qed.

(** The trimmed term is empty for a blank input only. *)
Lemma trim_nil_iff (s : jsstring) :
  trim s = [] <-> forallb is_white_space s = true.
Proof.
  split; [|apply trim_white].
  unfold trim, trimEnd. intros H.
  apply (f_equal (@rev N)) in H. rewrite rev_involutive in H. cbn [rev] in H.
  apply trimStart_nil_iff in H. rewrite forallb_rev in H.
  now rewrite trimStart_keeps_content in H.
Qed.

(** X1.  White space typed before or after the search term changes nothing:
    in all three scripts the click behaves exactly as on the bare term. *)
Theorem surrounding_white_space_is_ignored (net : network)
    (before_ws term after_ws h : jsstring) :
  forallb is_white_space before_ws = true ->
  forallb is_white_space after_ws = true ->
  Script.build_url (before_ws ++ term ++ after_ws) = Script.build_url term /\
  Script.click net (before_ws ++ term ++ after_ws) h = Script.click net term h /\
  AlertVariant.click net (before_ws ++ term ++ after_ws) h = AlertVariant.click net term h.
Proof.
  intros B A. pose proof (trim_surrounded before_ws term after_ws B A) as T.
  assert (U : Script.build_url (before_ws ++ term ++ after_ws) = Script.build_url term).
  { unfold Script.build_url. cbv zeta. now rewrite T. }
  split; [exact U | split].
  - unfold Script.click. now rewrite !bind_run, U.
  - unfold AlertVariant.click. cbv zeta. now rewrite T.
Qed.

Lemma surrounding_white_space_is_ignored_witness :
  Script.build_url (str "  " ++ str "funny cats" ++ [9; 10]) =
    Script.build_url (str "funny cats") /\
  Script.click (serving (success (body []))) (str "  " ++ str "funny cats" ++ [9; 10]) [] =
    Script.click (serving (success (body []))) (str "funny cats") [] /\
  AlertVariant.click (serving (success (body []))) (str "  " ++ str "funny cats" ++ [9; 10]) [] =
    AlertVariant.click (serving (success (body []))) (str "funny cats") [].
Proof.
  apply (surrounding_white_space_is_ignored (serving (success (body [])))
           (str "  ") (str "funny cats") [9; 10] []); reflexivity.
Defined.

(** X2.  The fallback branch is taken for a blank input only.  An input
    with at least one code unit that is not white space never raises the
    alert of part_001: the click runs the pipeline on the trimmed term and
    issues exactly one request, to the URL built from that term. *)
Theorem non_blank_input_is_searched (net : network) (input h : jsstring) :
  forallb is_white_space input = false ->
  nonempty (trim input) = true /\
  AlertVariant.click net input h = AlertVariant.pipeline net (trim input) h /\
  requests (AlertVariant.click net input h) =
    [Fetch (AlertVariant.build_endpoint (trim input))] /\
  filter (fun e => match e with Alert _ => true | _ => false end)
    (trace (AlertVariant.click net input h)) = [].
Proof.
  intros NB.
  assert (NE : nonempty (trim input) = true).
  { destruct (trim input) eqn:T; [|reflexivity].
    apply trim_nil_iff in T. congruence. }
  assert (C : AlertVariant.click net input h = AlertVariant.pipeline net (trim input) h).
  { unfold AlertVariant.click. cbv zeta. now rewrite NE. }
  split; [exact NE | split; [exact C|]]. rewrite C, alert_pipeline_run. cbv zeta.
  unfold requests.
  destruct (fetched_unfiltered _) as [images|e]; [|now split].
  pose proof (for_of_trace AlertVariant.img_item images []) as T.
  assert (F : forall p : event -> bool,
            (forall e, is_insertion e = true -> p e = false) ->
            filter p (trace (for_of images (render_step AlertVariant.img_item) [])) = []).
  { intros p Hp. induction T as [|e tr He _ IH]; [reflexivity|].
    cbn [filter]. now rewrite (Hp e He). }
  destruct (result (for_of images (render_step AlertVariant.img_item) [])) as [[]|e];
    cbn [trace app filter is_fetch]; rewrite !filter_app; cbn [filter is_fetch];
    rewrite !F; try (now split); now intros [].
Qed.

Lemma non_blank_input_is_searched_witness :
  nonempty (trim (str " cats ")) = true /\
  AlertVariant.click (serving (success (body []))) (str " cats ") [] =
    AlertVariant.pipeline (serving (success (body []))) (trim (str " cats ")) [] /\
  requests (AlertVariant.click (serving (success (body []))) (str " cats ") []) =
    [Fetch (AlertVariant.build_endpoint (trim (str " cats ")))] /\
  filter (fun e => match e with Alert _ => true | _ => false end)
    (trace (AlertVariant.click (serving (success (body []))) (str " cats ") [])) = [].
Proof.
  apply (non_blank_input_is_searched (serving (success (body []))) (str " cats ") []).
  reflexivity.
Defined.

(** ** The Query Builder: encoding *)

Lemma Normal_inj {A} (a b : A) : Normal a = Normal b -> a = b.
Proof. now intros [= ->]. Qed.

(** encodeURIComponent throws nothing but a URIError. *)
Lemma encode_throws_URIError :
  forall (n : nat) (s : jsstring) (e : js_error),
    (length s <= n)%nat -> encodeURIComponent s = Throw e -> e = URIError.
Proof.
  induction n as [|n IH]; intros s e L E.
  - destruct s; [discriminate E | cbn in L; lia].
  - destruct s as [|c t]; [discriminate E|].
    cbn [length] in L. cbn [encodeURIComponent] in E.
    destruct (is_unreserved c).
    + destruct (encodeURIComponent t) eqn:Et; [discriminate E|].
      cbn [cbind] in E. injection E as <-. apply (IH t); [lia | exact Et].
    + destruct (is_low_surrogate c); [now injection E as <-|].
      destruct (is_high_surrogate c).
      * destruct t as [|lo t']; [now injection E as <-|].
        destruct (is_low_surrogate lo); [|now injection E as <-].
        destruct (encodeURIComponent t') eqn:Et; [discriminate E|].
        cbn [cbind] in E. injection E as <-.
        apply (IH t'); [cbn [length] in L; lia | exact Et].
      * destruct (encodeURIComponent t) eqn:Et; [discriminate E|].
        cbn [cbind] in E. injection E as <-. apply (IH t); [lia | exact Et].
Qed.

(** X3.  A click of js/script.js (or part_000) either runs the pipeline on
    the URL built, or, when the trimmed term holds an unpaired surrogate,
    ends with the URIError of encodeURIComponent: that statement is before
    the [try], so nothing catches it, no request is made, nothing is logged
    and the display region is left as it was.  No other error leaves the
    handler. *)
Theorem click_fails_only_on_unencodable_term (net : network) (input h : jsstring) :
  (forall e, Script.build_url input = Throw e ->
     e = URIError /\
     Script.click net input h = {| result := Throw URIError; html := h; trace := [] |}) /\
  (forall url, Script.build_url input = Normal url ->
     Script.click net input h = Script.pipeline net url h /\
     result (Script.click net input h) = Normal tt).
Proof.
  split.
  - intros e B.
    assert (e = URIError) as ->.
    { unfold Script.build_url in B. cbv zeta in B.
      destruct (nonempty (trim input)); [|discriminate B].
      destruct (encodeURIComponent (trim input)) as [q|e'] eqn:E; [discriminate B|].
      cbn [cbind] in B. injection B as <-.
      exact (encode_throws_URIError _ _ _ (le_n _) E). }
    split; [reflexivity|]. unfold Script.click. now rewrite bind_run, B.
  - intros url B.
    assert (C : Script.click net input h = Script.pipeline net url h).
    { unfold Script.click. rewrite bind_run, B. unfold lift. cbn [result html trace app].
      now destruct (Script.pipeline net url h). }
    split; [exact C|]. rewrite C, pipeline_run.
    destruct (fetched (net url)) as [images|e]; [|reflexivity]. cbv zeta.
    now destruct (result (for_of images (render_step Script.img_item) [])).
Qed.

Lemma click_fails_only_on_unencodable_term_witness :
  (URIError = URIError /\
   Script.click (serving (success (body []))) (str "cat" ++ [55357]) (str "old") =
     {| result := Throw URIError; html := str "old"; trace := [] |}) /\
  (Script.click (serving (success (body []))) (str "cats") (str "old") =
     Script.pipeline (serving (success (body []))) Script.endpoint (str "old") /\
   result (Script.click (serving (success (body []))) (str "cats") (str "old")) = Normal tt).
Proof.
  split.
  - apply (proj1 (click_fails_only_on_unencodable_term (serving (success (body [])))
                    (str "cat" ++ [55357]) (str "old")) URIError).
    reflexivity.
  - apply (proj2 (click_fails_only_on_unencodable_term (serving (success (body [])))
                    (str "cats") (str "old")) Script.endpoint).
    reflexivity.
Defined.

(** X4.  A term made of letters, digits and [- _ . ! ~ * ' ( )] only is
    its own encoded form: it appears in the URL of js/script.js exactly as
    typed. *)
Theorem unreserved_term_is_sent_verbatim (input : jsstring) :
  nonempty (trim input) = true ->
  forallb is_unreserved (trim input) = true ->
  encodeURIComponent (trim input) = Normal (trim input) /\
  exists url, Script.build_url input = Normal url /\
              param_values (str "q") url = [trim input].
Proof.
  intros NE U.
  assert (E : forall s, forallb is_unreserved s = true -> encodeURIComponent s = Normal s).
  { induction s as [|c s IH]; [reflexivity|].
    cbn [forallb encodeURIComponent]. intros [-> F]%andb_prop. now rewrite (IH F). }
  split; [exact (E _ U)|].
  unfold Script.build_url. cbv zeta. rewrite NE, (E _ U). cbn [cbind].
  eexists. split; [reflexivity|].
  rewrite script_url_shape. unfold param_values.
  rewrite query_params_q;
    [reflexivity | reflexivity | reflexivity | exact (encode_safe _ _ (E _ U)) | reflexivity].
Qed.

Lemma unreserved_term_is_sent_verbatim_witness :
  encodeURIComponent (trim (str " grumpy-cat_2 ")) = Normal (trim (str " grumpy-cat_2 ")) /\
  exists url, Script.build_url (str " grumpy-cat_2 ") = Normal url /\
              param_values (str "q") url = [trim (str " grumpy-cat_2 ")].
Proof.
  apply (unreserved_term_is_sent_verbatim (str " grumpy-cat_2 ")); reflexivity.
Defined.

(** X5.  Whatever the term, the URL of js/script.js (and part_000) carries
    the same seven parameters in the same order; only the value of [q]
    varies.  No term can add, drop or override a parameter. *)
Theorem fixed_parameters_always_attached (input url : jsstring) :
  Script.build_url input = Normal url ->
  exists q,
    query_params url =
      [(str "api_key", Script.API_KEY); (str "q", q);
       (str "limit", decimal Script.LIMIT); (str "offset", str "0");
       (str "rating", Script.RATING); (str "lang", Script.LANG);
       (str "bundle", str "messaging_non_clips")] /\
    before 63 url = str "https://api.giphy.com/v1/gifs/search".
Proof.
  unfold Script.build_url. cbv zeta. intros B.
  destruct (nonempty (trim input)).
  - destruct (encodeURIComponent (trim input)) as [q|e] eqn:E; [|discriminate B].
    cbn [cbind] in B. apply Normal_inj in B. subst url. exists q.
    rewrite script_url_shape. split.
    + rewrite query_params_q;
        [reflexivity | reflexivity | reflexivity | exact (encode_safe _ _ E) | reflexivity].
    + rewrite (before_absent 63 (str "https://api.giphy.com/v1/gifs/search")) by reflexivity.
      cbn [before]. rewrite N.eqb_refl. apply app_nil_r.
  - apply Normal_inj in B. subst url. exists (str "cats"). split; reflexivity.
Qed.

Lemma fixed_parameters_always_attached_witness :
  exists q,
    query_params (str "https://api.giphy.com/v1/gifs/search?api_key=kRB3yQVxhHG7HfBAwbWk1eFfBTpMHdP3&q=a%26limit%3D1&limit=25&offset=0&rating=g&lang=en&bundle=messaging_non_clips") =
      [(str "api_key", Script.API_KEY); (str "q", q);
       (str "limit", decimal Script.LIMIT); (str "offset", str "0");
       (str "rating", Script.RATING); (str "lang", Script.LANG);
       (str "bundle", str "messaging_non_clips")] /\
    before 63 (str "https://api.giphy.com/v1/gifs/search?api_key=kRB3yQVxhHG7HfBAwbWk1eFfBTpMHdP3&q=a%26limit%3D1&limit=25&offset=0&rating=g&lang=en&bundle=messaging_non_clips") =
      str "https://api.giphy.com/v1/gifs/search".
Proof.
  apply (fixed_parameters_always_attached (str "a&limit=1")). reflexivity.
Defined.

(** ** The Query Builder: the alphabet of the URL *)

Lemma hex_digit_unreserved (n : N) : n < 16 -> is_unreserved (hex_digit n) = true.
Proof.
  intros H. destruct n as [|p]; [reflexivity|].
  do 4 (destruct p as [p|p|]; try reflexivity); exfalso; lia.
Qed.

Lemma percent_chars (octet : N) :
  octet < 256 -> forallb uri_char (percent octet) = true.
Proof.
  intros H. unfold percent. cbn [forallb]. unfold uri_char at 2 3.
  rewrite !hex_digit_unreserved; [reflexivity | |].
  - change 15 with (N.ones 4). rewrite N.land_ones. now apply N.mod_lt.
  - rewrite N.shiftr_div_pow2. apply N.Div0.div_lt_upper_bound. exact H.
Qed.

Lemma lor_lt_256 (a b : N) : a < 256 -> b < 256 -> N.lor a b < 256.
Proof.
  intros Ha Hb. destruct (N.eq_dec (N.lor a b) 0) as [->|NZ]; [lia|].
  change 256 with (2 ^ 8). apply N.log2_lt_pow2; [lia|].
  rewrite N.log2_lor. apply N.max_lub_lt.
  - destruct (N.eq_dec a 0) as [->|]; [reflexivity|]. apply N.log2_lt_pow2; [lia|exact Ha].
  - destruct (N.eq_dec b 0) as [->|]; [reflexivity|]. apply N.log2_lt_pow2; [lia|exact Hb].
Qed.

Lemma continuation_octet (x : N) : N.lor 128 (N.land x 63) < 256.
Proof.
  apply lor_lt_256; [lia|]. change 63 with (N.ones 6). rewrite N.land_ones.
  pose proof (N.mod_lt x (2 ^ 6)). cbn in *. lia.
Qed.

Lemma shiftr_lt_256 (v k bound : N) :
  v < bound -> bound = 256 * 2 ^ k -> N.shiftr v k < 256.
Proof.
  intros H ->. rewrite N.shiftr_div_pow2. apply N.Div0.div_lt_upper_bound. lia.
Qed.

Lemma escape_chars (v : N) : v < 67108864 -> forallb uri_char (escape v) = true.
Proof.
  intros H. unfold escape, utf8.
  destruct (N.leb_spec v 127); [|destruct (N.leb_spec v 2047); [|destruct (N.leb_spec v 65535)]];
    cbn [map concat app]; rewrite ?forallb_app, ?percent_chars;
    try reflexivity; try apply continuation_octet; try lia;
    (apply lor_lt_256; [lia|]).
  - apply (shiftr_lt_256 v 6 16384); [lia | reflexivity].
  - apply (shiftr_lt_256 v 12 1048576); [lia | reflexivity].
  - apply (shiftr_lt_256 v 18 67108864); [lia | reflexivity].
Qed.

Lemma encode_alphabet_bounded (n : nat) :
  forall s q, (length s <= n)%nat ->
  forallb is_code_unit s = true ->
  encodeURIComponent s = Normal q -> forallb uri_char q = true.
Proof.
  induction n as [|n IH]; intros s q L W E.
  - destruct s; [|cbn in L; lia]. cbn in E. now injection E as <-.
  - destruct s as [|c t]; [cbn in E; now injection E as <-|].
    cbn [length] in L. cbn [forallb] in W. apply andb_prop in W as [Wc Wt].
    unfold is_code_unit in Wc. apply N.ltb_lt in Wc.
    cbn [encodeURIComponent] in E.
    destruct (is_unreserved c) eqn:U.
    + destruct (encodeURIComponent t) as [r|] eqn:Et; [|discriminate].
      cbn [cbind] in E. injection E as <-. cbn [forallb]. unfold uri_char at 1.
      rewrite U. apply (IH t r); [lia | exact Wt | exact Et].
    + destruct (is_low_surrogate c); [discriminate|].
      destruct (is_high_surrogate c).
      * destruct t as [|lo t']; [discriminate|].
        destruct (is_low_surrogate lo); [|discriminate].
        destruct (encodeURIComponent t') as [r|] eqn:Et; [|discriminate].
        cbn [cbind] in E. injection E as <-.
        cbn [forallb] in Wt. apply andb_prop in Wt as [Wlo Wt'].
        unfold is_code_unit in Wlo. apply N.ltb_lt in Wlo.
        rewrite forallb_app, escape_chars by lia.
        apply (IH t' r); [cbn [length] in L; lia | exact Wt' | exact Et].
      * destruct (encodeURIComponent t) as [r|] eqn:Et; [|discriminate].
        cbn [cbind] in E. injection E as <-.
        rewrite forallb_app, escape_chars by lia.
        apply (IH t r); [lia | exact Wt | exact Et].
Qed.

Lemma forallb_trimStart (p : N -> bool) (s : jsstring) :
  forallb p s = true -> forallb p (trimStart s) = true.
Proof.
  induction s as [|c s IH]; [reflexivity|].
  intros H. cbn [trimStart]. destruct (is_white_space c); [|exact H].
  cbn [forallb] in H. apply andb_prop in H as [_ H]. now apply IH.
Qed.

Lemma forallb_trim (p : N -> bool) (s : jsstring) :
  forallb p s = true -> forallb p (trim s) = true.
Proof.
  intros H. unfold trim, trimEnd. rewrite forallb_rev. apply forallb_trimStart.
  rewrite forallb_rev. now apply forallb_trimStart.
Qed.

Lemma uri_char_url_char (q : jsstring) :
  forallb uri_char q = true -> forallb url_char q = true.
Proof.
  induction q as [|c q IH]; [reflexivity|].
  cbn [forallb]. intros [C F]%andb_prop. unfold url_char at 1. now rewrite C, (IH F).
Qed.

(** X6.  Whatever the user types, the URL that js/script.js (and part_000)
    requests is made of letters, digits, [- _ . ! ~ * ' ( ) %] and the
    delimiters [: / ? = &] only: no space, quote, control or non-ASCII code
    unit of the term reaches it unescaped. *)
Theorem built_url_alphabet (input url : jsstring) :
  forallb is_code_unit input = true ->
  Script.build_url input = Normal url ->
  forallb url_char url = true.
Proof.
  intros W B. unfold Script.build_url in B. cbv zeta in B.
  destruct (nonempty (trim input)).
  - destruct (encodeURIComponent (trim input)) as [q|e] eqn:E; [|discriminate B].
    cbn [cbind] in B. apply Normal_inj in B. subst url.
    pose proof (encode_alphabet_bounded _ _ q (le_n _) (forallb_trim _ _ W) E) as Q.
    apply uri_char_url_char in Q.
    rewrite !forallb_app, Q. reflexivity.
  - apply Normal_inj in B. subst url. reflexivity.
Qed.

Lemma built_url_alphabet_witness :
  forallb url_char
    (str "https://api.giphy.com/v1/gifs/search?api_key=kRB3yQVxhHG7HfBAwbWk1eFfBTpMHdP3&q=caf%C3%A9%20%22%F0%9F%98%80%22&limit=25&offset=0&rating=g&lang=en&bundle=messaging_non_clips") = true.
Proof.
  apply (built_url_alphabet (str "caf" ++ [233; 32; 34; 55357; 56832; 34])); reflexivity.
Defined.

(** ** fetchGifs *)

(** X7.  [fetchGifs] on a successful response with a [data] array returns,
    whatever the elements are, the nested URL values of the elements that
    pass the optional-chaining filter, in array order: the unguarded
    [item.images.original.url] of the [map] never throws after the filter,
    every value returned is truthy (no [undefined], no empty string), and
    no more values are returned than the array has elements. *)
Theorem fetchGifs_returns_truthy_urls (net : network) (url h : jsstring)
    (res : response) (data : json) (items : list json) :
  net url = Resolved res -> ok res = true -> json_body res = Normal data ->
  prop (str "data") data = Some (JArr items) ->
  let images :=
    map images_original_url_opt
      (filter (fun item => truthy (images_original_url_opt item)) items) in
  result (Script.fetchGifs net url h) = Normal images /\
  forallb truthy images = true /\
  (length images <= length items)%nat.
Proof.
  intros Hnet Hok Hbody Hdata. cbv zeta. split; [|split].
  - rewrite fetchGifs_result. unfold fetched. rewrite Hnet, Hok, Hbody. cbn [negb cbind].
    destruct data; try discriminate Hdata. unfold get. rewrite Hdata. cbn [cbind array_of].
    apply filter_then_map.
  - clear. induction items as [|item items IH]; [reflexivity|].
    cbn [filter]. destruct (truthy (images_original_url_opt item)) eqn:T; [|exact IH].
    cbn [map forallb]. now rewrite T.
  - rewrite length_map. clear. induction items as [|item items IH]; [reflexivity|].
    cbn [filter]. destruct (truthy _); cbn [length]; lia.
Qed.

Lemma fetchGifs_returns_truthy_urls_witness :
  let items := [gif (str "https://x/1.gif"); JNull; JStr (str "x"); gif [];
                JObj [(str "images", JObj [(str "original", JObj [(str "url", JBool true)])])]] in
  let images :=
    map images_original_url_opt
      (filter (fun item => truthy (images_original_url_opt item)) items) in
  result (Script.fetchGifs (serving (success (body items))) Script.endpoint []) = Normal images /\
  forallb truthy images = true /\
  (length images <= length items)%nat.
Proof.
  intros items images.
  apply (fetchGifs_returns_truthy_urls (serving (success (body items))) Script.endpoint []
           (success (body items)) (body items) items); reflexivity.
Defined.

(** X8.  [fetchGifs] throws in four ways only: the rejection of the fetch
    itself; [Error("HTTP <status>")] for a status outside 200-299; whatever
    decoding the body threw; and a TypeError, exactly when the decoded body
    has no [data] array.  The elements of the array never make it throw. *)
Theorem fetchGifs_error_kinds (net : network) (url h : jsstring) (e : js_error) :
  result (Script.fetchGifs net url h) = Throw e ->
  net url = Rejected e \/
  (exists res, net url = Resolved res /\ ok res = false /\
               e = ErrorMsg (str "HTTP " ++ decimal (status res))) \/
  (exists res, net url = Resolved res /\ ok res = true /\ json_body res = Throw e) \/
  (exists res data, net url = Resolved res /\ ok res = true /\
                    json_body res = Normal data /\ e = TypeError /\
                    forall items, prop (str "data") data <> Some (JArr items)).
Proof.
  rewrite fetchGifs_result. unfold fetched.
  destruct (net url) as [e'|res]; [intros [= ->]; now left|].
  destruct (ok res) eqn:Hok; cbn [negb].
  2:{ intros [= <-]. right; left. now exists res. }
  destruct (json_body res) as [data|e'] eqn:Hbody; cbn [cbind].
  2:{ intros [= ->]. right; right; left. now exists res. }
  intros H. right; right; right. exists res, data.
  assert (e = TypeError /\ forall items, prop (str "data") data <> Some (JArr items)) as [-> N].
  { unfold get in H. destruct data; cbn [cbind prop] in *;
      try (injection H as <-; split; [reflexivity | discriminate]).
    destruct (own (str "data") members) as [[]|]; cbn [array_of cbind] in H;
      try (injection H as <-; split; [reflexivity | discriminate]).
    rewrite filter_then_map in H. discriminate H. }
  now repeat split.
Qed.

Lemma fetchGifs_error_kinds_witness :
  serving {| status := 503; json_body := Throw SyntaxError |} Script.endpoint =
    Rejected (ErrorMsg (str "HTTP 503")) \/
  (exists res, serving {| status := 503; json_body := Throw SyntaxError |} Script.endpoint =
                 Resolved res /\ ok res = false /\
               ErrorMsg (str "HTTP 503") = ErrorMsg (str "HTTP " ++ decimal (status res))) \/
  (exists res, serving {| status := 503; json_body := Throw SyntaxError |} Script.endpoint =
                 Resolved res /\ ok res = true /\
               json_body res = Throw (ErrorMsg (str "HTTP 503"))) \/
  (exists res data, serving {| status := 503; json_body := Throw SyntaxError |} Script.endpoint =
                      Resolved res /\ ok res = true /\
                    json_body res = Normal data /\ ErrorMsg (str "HTTP 503") = TypeError /\
                    forall items, prop (str "data") data <> Some (JArr items)).
Proof.
  apply (fetchGifs_error_kinds (serving {| status := 503; json_body := Throw SyntaxError |})
           Script.endpoint [] (ErrorMsg (str "HTTP 503"))).
  reflexivity.
Defined.

Lemma str_inj (a b : string) : str a = str b -> a = b.
Proof.
  unfold str. intros H.
  rewrite <- (string_of_list_ascii_of_string a), <- (string_of_list_ascii_of_string b).
  f_equal. revert H. generalize (list_ascii_of_string a) (list_ascii_of_string b).
  induction l as [|x l IH]; intros [|y m] H; try discriminate H; [reflexivity|].
  cbn [map] in H. injection H as Hx Hl. f_equal; [|now apply IH].
  now rewrite <- (ascii_N_embedding x), <- (ascii_N_embedding y), Hx.
Qed.

(** The decimal text of a status determines the status. *)
Lemma decimal_inj (n m : N) : decimal n = decimal m -> n = m.
Proof.
  unfold decimal. intros H%str_inj.
  assert (NN : forall k, N.to_uint k <> Decimal.Nil).
  { intros [|p]; [discriminate | apply DecimalPos.Unsigned.to_uint_nonnil]. }
  apply DecimalN.Unsigned.to_uint_inj.
  pose proof (NilZero.usu _ (NN n)) as Un. pose proof (NilZero.usu _ (NN m)) as Um.
  rewrite H in Un. congruence.
Qed.

(** X9.  The error of the failure path identifies the status: two
    responses with non-success statuses that make js/script.js log the same
    events have the same status code. *)
Theorem status_error_identifies_status (net1 net2 : network) (url h : jsstring)
    (res1 res2 : response) :
  net1 url = Resolved res1 -> ok res1 = false ->
  net2 url = Resolved res2 -> ok res2 = false ->
  trace (Script.pipeline net1 url h) = trace (Script.pipeline net2 url h) ->
  status res1 = status res2.
Proof.
  intros N1 K1 N2 K2. rewrite !pipeline_run. unfold fetched.
  rewrite N1, N2, K1, K2. cbn [negb trace]. intros [= H].
  apply decimal_inj. exact H.
Qed.

Lemma status_error_identifies_status_witness :
  status {| status := 404; json_body := Throw SyntaxError |} =
  status {| status := 404; json_body := Normal (body []) |}.
Proof.
  apply (status_error_identifies_status
           (serving {| status := 404; json_body := Throw SyntaxError |})
           (serving {| status := 404; json_body := Normal (body []) |})
           Script.endpoint []); reflexivity.
Defined.

(** ** The pipelines as a whole *)

Lemma insertions_filter_nil (p : event -> bool) (tr : list event) :
  (forall e, is_insertion e = true -> p e = false) ->
  Forall (fun e => is_insertion e = true) tr -> filter p tr = [].
Proof.
  intros Hp. induction 1 as [|e tr He _ IH]; [reflexivity|].
  cbn [filter]. now rewrite (Hp e He).
Qed.

Lemma for_of_result (item : jsstring -> jsstring) (images : list value) (h : jsstring) :
  result (for_of images (render_step item) h) =
  cbind (cmap to_string_value images) (fun _ => Normal tt).
Proof.
  revert h. induction images as [|src images IH]; intros h; [reflexivity|].
  cbn [for_of cmap]. rewrite bind_run, render_step_run.
  destruct (to_string_value src) as [s|e]; cbn [result html trace cbind]; [|reflexivity].
  rewrite IH. now destruct (cmap to_string_value images).
Qed.

(** X10.  Every run of either pipeline issues exactly one request, before
    anything else happens, and completes normally whatever the network
    gives: no error leaves the [try ... catch]. *)
Theorem one_request_and_no_escape (net : network) (url term h : jsstring) :
  (requests (Script.pipeline net url h) = [Fetch url] /\
   hd_error (trace (Script.pipeline net url h)) = Some (Fetch url) /\
   result (Script.pipeline net url h) = Normal tt) /\
  (requests (AlertVariant.pipeline net term h) = [Fetch (AlertVariant.build_endpoint term)] /\
   hd_error (trace (AlertVariant.pipeline net term h)) =
     Some (Fetch (AlertVariant.build_endpoint term)) /\
   result (AlertVariant.pipeline net term h) = Normal tt).
Proof.
  assert (NF : forall e, is_insertion e = true -> is_fetch e = false) by now intros [].
  split.
  - rewrite pipeline_run. unfold requests.
    destruct (fetched (net url)) as [images|e]; [|now repeat split]. cbv zeta.
    pose proof (insertions_filter_nil is_fetch _ NF (for_of_trace Script.img_item images [])) as F.
    destruct (result (for_of images (render_step Script.img_item) [])) as [[]|e];
      cbn [trace result app filter is_fetch hd_error]; rewrite ?filter_app, F; now repeat split.
  - rewrite alert_pipeline_run. cbv zeta. unfold requests.
    destruct (fetched_unfiltered _) as [images|e]; [|now repeat split].
    pose proof (insertions_filter_nil is_fetch _ NF
                  (for_of_trace AlertVariant.img_item images [])) as F.
    destruct (result (for_of images (render_step AlertVariant.img_item) [])) as [[]|e];
      cbn [trace result app filter is_fetch hd_error]; rewrite ?filter_app, F; now repeat split.
Qed.

(** X11.  js/script.js (and part_000) never leaves a partial grid.  After
    any run the region holds either exactly the error notice, or one image
    item for every value [fetchGifs] returned, in order, and then nothing
    was logged as an error. *)
Theorem notice_or_complete_grid (net : network) (url h : jsstring) :
  (failed (Script.pipeline net url h) = true /\
   html (Script.pipeline net url h) = Script.error_notice) \/
  (failed (Script.pipeline net url h) = false /\
   exists images srcs,
     result (Script.fetchGifs net url h) = Normal images /\
     cmap to_string_value images = Normal srcs /\
     length srcs = length images /\
     html (Script.pipeline net url h) = concat (map Script.img_item srcs)).
Proof.
  rewrite fetchGifs_result, pipeline_run.
  destruct (fetched (net url)) as [images|e]; [|left; now split]. cbv zeta.
  rewrite for_of_result.
  destruct (cmap to_string_value images) as [srcs|e] eqn:C; cbn [cbind].
  - right. rewrite (for_of_strings Script.img_item images srcs [] C).
    unfold failed. cbn [trace html app existsb is_console_error orb].
    rewrite (insertions_no_console_error _ (appends_are_insertions _ _)).
    split; [reflexivity|]. exists images, srcs.
    split; [reflexivity | split; [exact C | split; [|reflexivity]]].
    clear -C. revert srcs C. induction images as [|v images IH]; intros srcs C.
    + now injection C as <-.
    + cbn [cmap] in C. destruct (to_string_value v); [|discriminate C].
      destruct (cmap to_string_value images) as [ss|]; [|discriminate C].
      cbn [cbind] in C. injection C as <-. cbn [length]. now rewrite (IH ss eq_refl).
  - left. split; [|reflexivity]. unfold failed. cbn [trace].
    rewrite existsb_app. cbn [existsb is_console_error]. now rewrite orb_true_r.
Qed.

Lemma chain_throws_TypeError (item : json) (e : js_error) :
  images_original_url item = Throw e -> e = TypeError.
Proof.
  unfold images_original_url, get. destruct item; cbn [cbind prop];
    try (intros [= <-]; reflexivity).
  - destruct (own (str "images") members) as [[]|]; cbn [cbind prop];
      try (intros [= <-]; reflexivity).
    destruct (own (str "original") members0) as [[]|]; cbn [cbind prop];
      try (intros [= <-]; reflexivity); discriminate.
Qed.

(** X12.  One element on which [gif.images.original.url] throws (a [null]
    element, or one whose [images] or [images.original] is missing or
    [null]), anywhere in the array, makes part_001 drop the whole result:
    the TypeError is logged and the region is left as it was, however many
    well-formed elements the array has. *)
Theorem alert_variant_one_bad_element_drops_all (net : network) (term h : jsstring)
    (res : response) (data : json) (items : list json) :
  net (AlertVariant.build_endpoint term) = Resolved res ->
  json_body res = Normal data ->
  prop (str "data") data = Some (JArr items) ->
  existsb (fun item => match images_original_url item with
                       | Throw _ => true
                       | Normal _ => false
                       end) items = true ->
  AlertVariant.pipeline net term h =
  {| result := Normal tt; html := h;
     trace := [Fetch (AlertVariant.build_endpoint term);
               ConsoleError (str "Error fetching GIFs:") TypeError] |}.
Proof.
  intros Hnet Hbody Hdata Hbad. rewrite alert_pipeline_run. cbv zeta.
  unfold fetched_unfiltered. rewrite Hnet, Hbody. cbn [cbind].
  destruct data; try discriminate Hdata. unfold get. rewrite Hdata. cbn [cbind array_of].
  assert (C : cmap images_original_url items = Throw TypeError).
  { clear -Hbad. induction items as [|item items IH]; [discriminate Hbad|].
    cbn [existsb] in Hbad. cbn [cmap].
    destruct (images_original_url item) as [v|e] eqn:E; cbn [cbind].
    - cbn [orb] in Hbad. now rewrite (IH Hbad).
    - now rewrite (chain_throws_TypeError item e E). }
  now rewrite C.
Qed.

Lemma alert_variant_one_bad_element_drops_all_witness :
  AlertVariant.pipeline
    (serving (success (body [gif (str "https://x/1.gif"); gif (str "https://x/2.gif"); JNull])))
    (str "cats") (str "old") =
  {| result := Normal tt; html := str "old";
     trace := [Fetch (AlertVariant.build_endpoint (str "cats"));
               ConsoleError (str "Error fetching GIFs:") TypeError] |}.
Proof.
  apply (alert_variant_one_bad_element_drops_all
           (serving (success (body [gif (str "https://x/1.gif");
                                    gif (str "https://x/2.gif"); JNull])))
           (str "cats") (str "old")
           (success (body [gif (str "https://x/1.gif"); gif (str "https://x/2.gif"); JNull]))
           (body [gif (str "https://x/1.gif"); gif (str "https://x/2.gif"); JNull])
           [gif (str "https://x/1.gif"); gif (str "https://x/2.gif"); JNull]);
    reflexivity.
Defined.

(** ** The two extractions compared *)

Lemma gif_chain (u : jsstring) :
  images_original_url (gif u) = Normal (Some (JStr u)) /\
  images_original_url_opt (gif u) = Some (JStr u).
Proof. split; reflexivity. Qed.

Lemma cmap_gifs (urls : list jsstring) :
  cmap images_original_url (map gif urls) = Normal (map (fun u => Some (JStr u)) urls).
Proof.
  induction urls as [|u urls IH]; [reflexivity|].
  cbn [map cmap]. rewrite (proj1 (gif_chain u)), IH. reflexivity.
Qed.

Lemma collected_gifs (urls : list jsstring) :
  collected (map gif urls) = filter nonempty urls /\ forallb shaped (map gif urls) = true.
Proof.
  induction urls as [|u urls [IH1 IH2]]; [now split|].
  cbn [map forallb filter]. unfold collected in *. cbn [flat_map].
  unfold url_string at 1, shaped at 1. rewrite (proj2 (gif_chain u)), IH1, IH2.
  now destruct (nonempty u).
Qed.

(** X13.  On a response whose elements all have the documented shape,
    part_001 inserts one image per element, empty URLs included, while
    js/script.js (and part_000) inserts one image per non-empty URL: the
    two grids show the same sources exactly when no URL is empty. *)
Theorem well_formed_array_in_both_variants (net : network) (url term h : jsstring)
    (res : response) (urls : list jsstring) :
  ok res = true -> json_body res = Normal (body (map gif urls)) ->
  (net url = Resolved res ->
   html (Script.pipeline net url h) = concat (map Script.img_item (filter nonempty urls)) /\
   dom_writes (Script.pipeline net url h) =
     SetInnerHTML [] ::
     map (fun s => AppendInnerHTML (Script.img_item s)) (filter nonempty urls)) /\
  (net (AlertVariant.build_endpoint term) = Resolved res ->
   html (AlertVariant.pipeline net term h) = concat (map AlertVariant.img_item urls) /\
   dom_writes (AlertVariant.pipeline net term h) =
     SetInnerHTML [] :: map (fun s => AppendInnerHTML (AlertVariant.img_item s)) urls).
Proof.
  intros Hok Hbody. destruct (collected_gifs urls) as [Hc Hs]. split; intros Hnet.
  - rewrite (script_renders_collected net url h res (body (map gif urls)) (map gif urls)
               Hnet Hok Hbody eq_refl Hs), Hc.
    unfold dom_writes. cbn [html trace app filter is_dom_write].
    now rewrite (insertions_dom_writes _ (appends_are_insertions _ _)).
  - rewrite alert_pipeline_run. cbv zeta. unfold fetched_unfiltered.
    rewrite Hnet, Hbody.
    change (cbind (Normal (body (map gif urls))) ?k) with (k (body (map gif urls))).
    cbv beta.
    change (get (Some (body (map gif urls))) (str "data")) with
      (Normal (A:=value) (Some (JArr (map gif urls)))).
    cbn [cbind array_of]. rewrite cmap_gifs.
    rewrite (for_of_strings AlertVariant.img_item _ urls [] (strings_to_string urls)).
    unfold dom_writes. cbn [result html trace app filter is_dom_write].
    rewrite filter_app. cbn [filter is_dom_write].
    now rewrite (insertions_dom_writes _ (appends_are_insertions _ _)), app_nil_r.
Qed.

Lemma well_formed_array_in_both_variants_witness :
  (html (Script.pipeline (serving (success (body (map gif [str "https://x/1.gif"; []]))))
           Script.endpoint (str "old")) =
     concat (map Script.img_item (filter nonempty [str "https://x/1.gif"; []])) /\
   dom_writes (Script.pipeline (serving (success (body (map gif [str "https://x/1.gif"; []]))))
                 Script.endpoint (str "old")) =
     SetInnerHTML [] ::
     map (fun s => AppendInnerHTML (Script.img_item s))
       (filter nonempty [str "https://x/1.gif"; []])) /\
  (html (AlertVariant.pipeline (serving (success (body (map gif [str "https://x/1.gif"; []]))))
           (str "cats") (str "old")) =
     concat (map AlertVariant.img_item [str "https://x/1.gif"; []]) /\
   dom_writes (AlertVariant.pipeline
                 (serving (success (body (map gif [str "https://x/1.gif"; []]))))
                 (str "cats") (str "old")) =
     SetInnerHTML [] ::
     map (fun s => AppendInnerHTML (AlertVariant.img_item s)) [str "https://x/1.gif"; []]).
Proof.
  pose proof (well_formed_array_in_both_variants
                (serving (success (body (map gif [str "https://x/1.gif"; []]))))
                Script.endpoint (str "cats") (str "old")
                (success (body (map gif [str "https://x/1.gif"; []])))
                [str "https://x/1.gif"; []] eq_refl eq_refl) as [S A].
  split; [apply S | apply A]; reflexivity.
Defined.

(** X14.  When every element of the array passes the filter of [fetchGifs]
    (each has a truthy nested URL), the unfiltered extraction of part_001
    yields exactly the list [fetchGifs] returns. *)
Theorem extractions_agree_without_malformed (net : network) (url term h : jsstring)
    (res : response) (data : json) (items : list json) :
  net url = Resolved res -> net (AlertVariant.build_endpoint term) = Resolved res ->
  ok res = true -> json_body res = Normal data ->
  prop (str "data") data = Some (JArr items) ->
  forallb (fun item => truthy (images_original_url_opt item)) items = true ->
  result (AlertVariant.extract net (AlertVariant.build_endpoint term) h) =
    result (Script.fetchGifs net url h) /\
  result (Script.fetchGifs net url h) = Normal (map images_original_url_opt items).
Proof.
  intros Hs Ha Hok Hbody Hdata Hall.
  rewrite alert_extract_result, fetchGifs_result. unfold fetched_unfiltered, fetched.
  rewrite Hs, Ha, Hok, Hbody. cbn [negb cbind].
  destruct data; try discriminate Hdata. unfold get. rewrite Hdata. cbn [cbind array_of].
  assert (F : filter (fun item => truthy (images_original_url_opt item)) items = items).
  { clear -Hall. induction items as [|item items IH]; [reflexivity|].
    cbn [forallb] in Hall. apply andb_prop in Hall as [T Hall].
    cbn [filter]. now rewrite T, (IH Hall). }
  pose proof (filter_then_map items) as M. rewrite F in M. rewrite F, M. now split.
Qed.

Lemma extractions_agree_without_malformed_witness :
  result (AlertVariant.extract
            (serving (success (body [gif (str "https://x/1.gif"); gif (str "https://x/2.gif")])))
            (AlertVariant.build_endpoint (str "cats")) []) =
    result (Script.fetchGifs
              (serving (success (body [gif (str "https://x/1.gif"); gif (str "https://x/2.gif")])))
              Script.endpoint []) /\
  result (Script.fetchGifs
            (serving (success (body [gif (str "https://x/1.gif"); gif (str "https://x/2.gif")])))
            Script.endpoint []) =
    Normal (map images_original_url_opt
              [gif (str "https://x/1.gif"); gif (str "https://x/2.gif")]).
Proof.
  apply (extractions_agree_without_malformed
           (serving (success (body [gif (str "https://x/1.gif"); gif (str "https://x/2.gif")])))
           Script.endpoint (str "cats") []
           (success (body [gif (str "https://x/1.gif"); gif (str "https://x/2.gif")]))
           (body [gif (str "https://x/1.gif"); gif (str "https://x/2.gif")])
           [gif (str "https://x/1.gif"); gif (str "https://x/2.gif")]); reflexivity.
Defined.

(** X15.  part_001 is idempotent as well: a second run with the same term
    and the same backing response leaves the region as the first run left
    it, whether the runs succeed (the region is rebuilt from empty) or
    fail (the region is not touched). *)
Theorem alert_pipeline_twice_same_content (net : network) (term h : jsstring) :
  html (AlertVariant.pipeline net term (html (AlertVariant.pipeline net term h))) =
  html (AlertVariant.pipeline net term h).
Proof.
  rewrite (alert_pipeline_run net term (html _)), (alert_pipeline_run net term h). cbv zeta.
  destruct (fetched_unfiltered _) as [images|e]; [|reflexivity].
  now destruct (result (for_of images (render_step AlertVariant.img_item) [])).
Qed.

(** ** Clicks and requests *)

Lemma script_click_run (net : network) (input h : jsstring) :
  Script.click net input h =
  match Script.build_url input with
  | Normal url => Script.pipeline net url h
  | Throw e => {| result := Throw e; html := h; trace := [] |}
  end.
Proof.
  unfold Script.click. rewrite bind_run. unfold lift. cbn [result html trace app].
  destruct (Script.build_url input) as [url|e]; [|reflexivity].
  now destruct (Script.pipeline net url h).
Qed.

Lemma build_url_throws (input : jsstring) (e : js_error) :
  Script.build_url input = Throw e -> e = URIError.
Proof.
  unfold Script.build_url. cbv zeta.
  destruct (nonempty (trim input)); [|discriminate].
  destruct (encodeURIComponent (trim input)) as [q|e'] eqn:E; [discriminate|].
  cbn [cbind]. intros [= <-]. exact (encode_throws_URIError _ _ _ (le_n _) E).
Qed.

Lemma script_pipeline_requests (net : network) (url h : jsstring) :
  requests (Script.pipeline net url h) = [Fetch url].
Proof.
  rewrite pipeline_run. unfold requests.
  destruct (fetched (net url)) as [images|e]; [|reflexivity]. cbv zeta.
  assert (F : filter is_fetch (trace (for_of images (render_step Script.img_item) [])) = []).
  { apply insertions_filter_nil; [now intros [] | apply for_of_trace]. }
  destruct (result (for_of images (render_step Script.img_item) [])) as [[]|e];
    cbn [trace app filter is_fetch]; now rewrite ?filter_app, F.
Qed.

(** X16.  A click of js/script.js (or part_000) issues exactly one request,
    to the URL the Query Builder gave, unless the term cannot be encoded:
    then it issues none. *)
Theorem click_requests (net : network) (input h : jsstring) :
  (exists url, Script.build_url input = Normal url /\
               requests (Script.click net input h) = [Fetch url]) \/
  (Script.build_url input = Throw URIError /\
   requests (Script.click net input h) = []).
Proof.
  rewrite script_click_run.
  destruct (Script.build_url input) as [url|e] eqn:B.
  - left. exists url. split; [reflexivity | apply script_pipeline_requests].
  - right. rewrite (build_url_throws input e B). now split.
Qed.

Lemma split_on_none (sep : code_unit) (s : jsstring) :
  forallb (fun c => negb (c =? sep)) s = true -> split_on sep s = [s].
Proof.
  induction s as [|c s IH]; [reflexivity|].
  cbn [forallb split_on]. intros [C F]%andb_prop.
  apply negb_true_iff in C. now rewrite C, (IH F).
Qed.

Lemma alert_url_shape_cut (a b : jsstring) (c : code_unit) :
  AlertVariant.build_endpoint (a ++ c :: b) =
  str "https://api.giphy.com/v1/gifs/search/tags" ++ 63 ::
  str "api_key=kRB3yQVxhHG7HfBAwbWk1eFfBTpMHdP3" ++ 38 ::
  (str "q=" ++ a) ++ c :: b ++ 38 :: str "limit=25&offset=0".
Proof.
  rewrite alert_url_shape. do 3 f_equal. now rewrite <- !app_assoc.
Qed.

(** X17.  part_001 puts the term into the URL as typed, so a [#] or an [&]
    in the term cuts the search short.  With a [#], the query ends there:
    [q] is the text before it and the fixed [limit] and [offset] parameters
    are lost.  With an [&], [q] is the text before it and the rest of the
    term is read as further parameters. *)
Theorem alert_variant_term_delimiters (a b : jsstring) :
  forallb query_safe a = true ->
  query_params (AlertVariant.build_endpoint (a ++ 35 :: b)) =
    [(str "api_key", str "kRB3yQVxhHG7HfBAwbWk1eFfBTpMHdP3"); (str "q", a)] /\
  exists others,
    query_params (AlertVariant.build_endpoint (a ++ 38 :: b)) =
      (str "api_key", str "kRB3yQVxhHG7HfBAwbWk1eFfBTpMHdP3") :: (str "q", a) :: others.
Proof.
  intros Ha. destruct (query_safe_split _ Ha) as [Ha35 Ha38].
  assert (Hq35 : forallb (fun c => negb (c =? 35)) (str "q=" ++ a) = true) by exact Ha35.
  assert (Hq38 : forallb (fun c => negb (c =? 38)) (str "q=" ++ a) = true) by exact Ha38.
  rewrite !alert_url_shape_cut. unfold query_params.
  rewrite !(after_absent 63 (str "https://api.giphy.com/v1/gifs/search/tags")) by reflexivity.
  cbn [after]. rewrite N.eqb_refl.
  rewrite !(before_absent 35 (str "api_key=kRB3yQVxhHG7HfBAwbWk1eFfBTpMHdP3")) by reflexivity.
  cbn [before N.eqb Pos.eqb]. rewrite !(before_absent 35 (str "q=" ++ a)) by exact Hq35.
  cbn [before N.eqb Pos.eqb]. rewrite app_nil_r.
  rewrite !(split_on_absent 38 (str "api_key=kRB3yQVxhHG7HfBAwbWk1eFfBTpMHdP3")) by reflexivity.
  rewrite (split_on_none 38 _ Hq38), (split_on_absent 38 (str "q=" ++ a) _ Hq38).
  split; [reflexivity | eexists; reflexivity].
Qed.

Lemma alert_variant_term_delimiters_witness :
  query_params (AlertVariant.build_endpoint (str "cats" ++ 35 :: str "1")) =
    [(str "api_key", str "kRB3yQVxhHG7HfBAwbWk1eFfBTpMHdP3"); (str "q", str "cats")] /\
  exists others,
    query_params (AlertVariant.build_endpoint (str "cats" ++ 38 :: str "1")) =
      (str "api_key", str "kRB3yQVxhHG7HfBAwbWk1eFfBTpMHdP3") :: (str "q", str "cats") :: others.
Proof.
  apply (alert_variant_term_delimiters (str "cats") (str "1")). reflexivity.
Defined.

(** ** A value that cannot be converted to a string *)

Lemma for_of_stops (item : jsstring -> jsstring) (done : list value) (bad : value)
    (rest : list value) (srcs : list jsstring) (e : js_error) (h : jsstring) :
  cmap to_string_value done = Normal srcs ->
  to_string_value bad = Throw e ->
  for_of (done ++ bad :: rest) (render_step item) h =
  {| result := Throw e;
     html := h ++ concat (map item srcs);
     trace := map (fun s => AppendInnerHTML (item s)) srcs |}.
Proof.
  revert srcs h. induction done as [|v done IH]; intros srcs h C B.
  - cbn in C. injection C as <-. cbn [app for_of]. rewrite bind_run, render_step_run, B.
    cbn [result html trace map concat]. now rewrite app_nil_r.
  - cbn [cmap] in C. cbn [app for_of]. rewrite bind_run, render_step_run.
    destruct (to_string_value v) as [s|]; [|discriminate C].
    destruct (cmap to_string_value done) as [ss|]; [|discriminate C].
    cbn [cbind] in C. injection C as <-. cbn [result html trace].
    rewrite (IH ss (h ++ item s) eq_refl B). cbn [result html trace map concat app].
    now rewrite app_assoc.
Qed.

(** X18.  When the conversion of an extracted value to a string throws in
    the render loop (a [url] that is an object with a [toString] member of
    its own), the region has already been cleared and the images before
    that value inserted.  js/script.js (and part_000) then replaces all of
    it by the error notice, a second destructive write; part_001 only logs,
    and leaves the partial grid. *)
Theorem conversion_failure_in_the_loop (net : network) (url term h : jsstring)
    (done rest : list value) (bad : value) (srcs : list jsstring) (e : js_error) :
  cmap to_string_value done = Normal srcs ->
  to_string_value bad = Throw e ->
  (result (Script.fetchGifs net url h) = Normal (done ++ bad :: rest) ->
   html (Script.pipeline net url h) = Script.error_notice /\
   dom_writes (Script.pipeline net url h) =
     (SetInnerHTML [] :: map (fun s => AppendInnerHTML (Script.img_item s)) srcs) ++
     [SetInnerHTML Script.error_notice]) /\
  (result (AlertVariant.extract net (AlertVariant.build_endpoint term) h) =
     Normal (done ++ bad :: rest) ->
   html (AlertVariant.pipeline net term h) = concat (map AlertVariant.img_item srcs) /\
   dom_writes (AlertVariant.pipeline net term h) =
     SetInnerHTML [] :: map (fun s => AppendInnerHTML (AlertVariant.img_item s)) srcs /\
   failed (AlertVariant.pipeline net term h) = true).
Proof.
  intros C B. split; intros F.
  - rewrite fetchGifs_result in F. rewrite pipeline_run, F. cbv zeta.
    rewrite (for_of_stops Script.img_item done bad rest srcs e [] C B).
    unfold dom_writes. cbn [result html trace app filter is_dom_write].
    split; [reflexivity|]. rewrite filter_app. cbn [filter is_dom_write].
    now rewrite (insertions_dom_writes _ (appends_are_insertions _ _)).
  - rewrite alert_extract_result in F. rewrite alert_pipeline_run. cbv zeta. rewrite F.
    rewrite (for_of_stops AlertVariant.img_item done bad rest srcs e [] C B).
    unfold dom_writes, failed. cbn [result html trace app filter is_dom_write existsb
                                     is_console_error orb].
    rewrite filter_app, existsb_app. cbn [filter is_dom_write existsb is_console_error].
    rewrite (insertions_dom_writes _ (appends_are_insertions _ _)), app_nil_r.
    now rewrite orb_true_r.
Qed.

Lemma conversion_failure_in_the_loop_witness :
  let weird := JObj [(str "toString", JNull)] in
  let response :=
    success (body [gif (str "https://x/1.gif");
                   JObj [(str "images", JObj [(str "original", JObj [(str "url", weird)])])];
                   gif (str "https://x/3.gif")]) in
  (html (Script.pipeline (serving response) Script.endpoint (str "old")) =
     Script.error_notice /\
   dom_writes (Script.pipeline (serving response) Script.endpoint (str "old")) =
     [SetInnerHTML []; AppendInnerHTML (Script.img_item (str "https://x/1.gif"));
      SetInnerHTML Script.error_notice]) /\
  (html (AlertVariant.pipeline (serving response) (str "cats") (str "old")) =
     AlertVariant.img_item (str "https://x/1.gif") /\
   dom_writes (AlertVariant.pipeline (serving response) (str "cats") (str "old")) =
     [SetInnerHTML []; AppendInnerHTML (AlertVariant.img_item (str "https://x/1.gif"))] /\
   failed (AlertVariant.pipeline (serving response) (str "cats") (str "old")) = true).
Proof.
  intros weird response.
  pose proof (conversion_failure_in_the_loop (serving response) Script.endpoint (str "cats")
                (str "old") [Some (JStr (str "https://x/1.gif"))]
                [Some (JStr (str "https://x/3.gif"))] (Some weird)
                [str "https://x/1.gif"] TypeError eq_refl eq_refl) as [S A].
  split; [apply S | apply A]; reflexivity.
Defined.
